(** * pyperch: the backprop network module

    A shallow embedding of [pyperch/neural/backprop_nn.py]: the class
    [BackpropModule] (constructor and forward pass) and the training step
    it installs on skorch's [NeuralNet].

    The code is glue over torch and skorch.  The primitives it calls
    ([nn.Linear], [nn.Dropout], [nn.ModuleList], [unpack_data], the
    methods of [NeuralNet]) are modelled here as far as the module
    observes them: which calls raise, which shapes they produce, which
    part of the state they touch.  Floating point is kept abstract behind
    the class [Float]. *)

From Stdlib Require Import ZArith QArith Lia List.
From stdpp Require Import base gmap strings list.

Local Open Scope Z_scope.

(** ** Scalars *)

(** The element type of tensors.  The module never inspects a scalar; the
    operations below are the ones the torch primitives need. *)
Class Float (T : Type) := {
  f_zero : T;
  f_add : T -> T -> T;
  f_mul : T -> T -> T;
  f_div : T -> T -> T;
  f_max : T -> T -> T;
  f_exp : T -> T;
  f_of_Q : Q -> T
}.

(** Exact rationals, used to run the model on concrete inputs.  The
    exponential is its series truncated after the quadratic term. *)
Definition Q_float : Float Q := {|
  f_zero := 0%Q;
  f_add := Qplus;
  f_mul := Qmult;
  f_div := Qdiv;
  f_max := fun a b => if Qle_bool a b then b else a;
  f_exp := fun x => (1 + x + x * x / 2)%Q;
  f_of_Q := fun q => q
|}.

(** ** Python and process state *)

Inductive Exn :=
| ValueError
| TypeError
| RuntimeError
| IndexError
| AttributeError.

Inductive Outcome (A : Type) :=
| Ok (a : A)
| Raised (e : Exn).
Arguments Ok {A} a.
Arguments Raised {A} e.

Inductive Device := cuda | cpu.

(** What a class attribute can hold, as far as this module can tell: a
    method the host framework ships, the training step defined in
    [register_backprop_training_step], or a function some other code put
    there. *)
Inductive Method :=
| host_method (qualname : string)
| backprop_train_step_single
| foreign_method (tag : string).

(** Observable actions, in the order they happen. *)
Inductive Event :=
| EModuleInit
| ESetattr (cls name : string)
| EStore (attr : string)
| EAlloc (in_f out_f : Z)
| ECallLayer (i : Z)
| ECallActivation
| ECallDropout
| ECallOutputActivation
| ESetTraining (b : bool)
| EInfer
| EGetLoss
| EBackward.

(** The part of the interpreter's state the module reads or writes: the
    attribute dictionaries of the loaded classes, whether CUDA is there,
    torch's default random generator (a stream of uniform samples in
    [0,1) and the position in it), and the log of actions. *)
Record World := mkWorld {
  classes : gmap string (gmap string Method);
  cuda_is_available : bool;
  generator : N -> Q;
  position : N;
  trace : list Event
}.

(** Computations over a state [S] that may raise; the state survives an
    exception, as Python's heap does. *)
Definition M (S A : Type) : Type := S -> Outcome A * S.

Definition ret {S A} (a : A) : M S A := fun s => (Ok a, s).

Definition raise {S A} (e : Exn) : M S A := fun s => (Raised e, s).

Definition bind {S A B} (c : M S A) (k : A -> M S B) : M S B :=
  fun s => match c s with
           | (Ok a, s') => k a s'
           | (Raised e, s') => (Raised e, s')
           end.

Notation "'let!' x ':=' c 'in' k" := (bind c (fun x => k))
  (at level 10, x pattern, c at level 100, k at level 200).
Notation "c ';;' k" := (bind c (fun _ => k))
  (at level 100, k at level 200, right associativity, only parsing).

Definition log (e : Event) : M World unit :=
  fun w => (Ok tt, mkWorld (classes w) (cuda_is_available w) (generator w)
                           (position w) (trace w ++ [e])).

(** [self.attr = v]: the value is bound and the assignment logged. *)
Definition store {A} (attr : string) (v : A) : M World A :=
  log (EStore attr) ;; ret v.

(** [range(lo, hi)] over Python integers: empty when [hi <= lo]. *)
Definition py_range (lo hi : Z) : list Z :=
  map (fun k => lo + Z.of_nat k) (seq 0 (Z.to_nat (hi - lo))).

(** [for x in xs: acc = body(x, acc)]. *)
Fixpoint for_each {S A B} (xs : list A) (body : A -> B -> M S B) (acc : B) : M S B :=
  match xs with
  | [] => ret acc
  | x :: xs' => let! acc' := body x acc in for_each xs' body acc'
  end.

(** [l[i]] with Python's negative indices, as [nn.ModuleList.__getitem__]
    resolves them. *)
Definition getitem {S A} (l : list A) (i : Z) : M S A :=
  let n := Z.of_nat (length l) in
  if (- n <=? i) && (i <? n) then
    match l !! Z.to_nat (if i <? 0 then i + n else i) with
    | Some x => ret x
    | None => raise IndexError
    end
  else raise IndexError.

(** [lift] runs a computation on the interpreter state inside one that
    also carries an object [O] (the [self] of a method that mutates it). *)
Definition lift {O A} (c : M World A) : M (O * World) A :=
  fun s => let (r, w') := c (snd s) in (r, (fst s, w')).

Section Network.

Context {T : Type} `{Float T}.

(** ** Tensors and the torch modules used *)

(** A batch: [rows] are the samples, [ncols] the width of the last
    dimension (kept apart from the rows so that an empty batch has a
    shape too). *)
Record Tensor := mkTensor {
  ncols : Z;
  rows : list (list T)
}.

Definition shape (X : Tensor) : Z * Z := (Z.of_nat (length (rows X)), ncols X).

(** [nn.Linear]: weight of shape (out_features, in_features), bias of
    shape (out_features), and the gradients autograd accumulates for
    them ([None] until the first backward pass). *)
Record Linear := mkLinear {
  in_features : Z;
  out_features : Z;
  weight : list (list T);
  bias : list T;
  weight_grad : option (list (list T));
  bias_grad : option (list T);
  linear_device : Device
}.

(** [n] samples from the default generator. *)
Definition draw (n : nat) : M World (list T) :=
  fun w =>
    (Ok (map (fun k => f_of_Q (generator w (position w + N.of_nat k))) (seq 0 n)),
     mkWorld (classes w) (cuda_is_available w) (generator w)
             (position w + N.of_nat n) (trace w)).

Fixpoint draw_rows (r c : nat) : M World (list (list T)) :=
  match r with
  | O => ret []
  | S r' => let! x := draw c in let! xs := draw_rows r' c in ret (x :: xs)
  end.

(** torch takes the sizes of a tensor as signed 64-bit integers, and a
    tensor of [n] numbers of the default type (single precision) needs
    [4 * n] bytes, a number that has to fit the same range. *)
Definition int64_bound : Z := 9223372036854775808.

Definition is_int64 (n : Z) : bool := (- int64_bound <=? n) && (n <? int64_bound).

Definition storage_overflows (numel : Z) : bool := int64_bound <=? 4 * numel.

(** [nn.Linear(in_f, out_f, device=dev)] creates the weight with
    [torch.empty((out_f, in_f))] and the bias with [torch.empty(out_f)].
    A size outside the 64-bit range is a [TypeError] (the argument cannot
    be unpacked); a negative size, or a storage size that overflows, is a
    [RuntimeError]; a size of zero gives an empty parameter tensor.  The
    initial values come from the generator (their distribution is not
    modelled).

    Below the overflow limit torch also raises [RuntimeError] when the
    machine cannot provide the memory.  How much there is is not part of
    the state modelled here, and the model lets such a call return.  So
    the theorems on the constructor say that it returns only at
    dimensions they write out; for the rest they start from a
    construction that has returned, or say when it raises. *)
Definition nn_Linear (in_f out_f : Z) (dev : Device) : M World Linear :=
  if negb (is_int64 in_f && is_int64 out_f) then raise TypeError
  else if (in_f <? 0) || (out_f <? 0) then raise RuntimeError
  else if storage_overflows (out_f * in_f) || storage_overflows out_f
  then raise RuntimeError
  else
    log (EAlloc in_f out_f) ;;
    let! w := draw_rows (Z.to_nat out_f) (Z.to_nat in_f) in
    let! b := draw (Z.to_nat out_f) in
    ret (mkLinear in_f out_f w b None None dev).

Definition dot (w x : list T) : T := foldr f_add f_zero (zip_with f_mul w x).

Definition affine (l : Linear) (x : list T) : list T :=
  zip_with (fun w b => f_add (dot w x) b) (weight l) (bias l).

(** Calling a linear layer: the last dimension of the input has to be
    [in_features]. *)
Definition Linear_forward (l : Linear) (X : Tensor) : M World Tensor :=
  if ncols X =? in_features l
  then ret (mkTensor (out_features l) (map (affine l) (rows X)))
  else raise RuntimeError.

(** [nn.Dropout(p)]: the constructor rejects a probability outside
    [0, 1]. *)
Record Dropout := mkDropout { p_drop : Q }.

Definition nn_Dropout (prob : Q) : M World Dropout :=
  if negb (Qle_bool 0 prob) || negb (Qle_bool prob 1) then raise ValueError
  else ret (mkDropout prob).

(** Calling dropout: the identity in evaluation mode and when [p = 0].
    In training mode with [p = 1] the input is multiplied by zero and
    the generator is left alone; with any other [p] the input is
    multiplied by a mask drawn from the generator, whose entries are
    [1 / (1 - p)] with probability [1 - p] and zero otherwise. *)
Definition Dropout_forward (d : Dropout) (training : bool) (X : Tensor) : M World Tensor :=
  if Qeq_bool (p_drop d) 0 || negb training then ret X
  else if Qeq_bool (p_drop d) 1
  then ret (mkTensor (ncols X) (map (map (fun x => f_mul x f_zero)) (rows X)))
  else fun w =>
    let keep (i j : nat) :=
      negb (Qle_bool (1 - p_drop d)
              (generator w (position w + N.of_nat (i * Z.to_nat (ncols X) + j)))) in
    let noise (i j : nat) :=
      if keep i j then f_div (f_of_Q 1) (f_of_Q (1 - p_drop d)) else f_zero in
    let mask (i : nat) (r : list T) := imap (fun j x => f_mul x (noise i j)) r in
    (Ok (mkTensor (ncols X) (imap mask (rows X))),
     mkWorld (classes w) (cuda_is_available w) (generator w)
             (position w + N.of_nat (length (rows X) * Z.to_nat (ncols X))) (trace w)).

(** An activation module, one of [torch.nn.modules.activation] as the
    docstring of [__init__] has it.  Called on a tensor, in the mode
    given by the [training] flag, it returns a tensor, of whatever shape,
    or raises; it may draw from the random generator (as [nn.RReLU] does
    in training mode), which here means: read the stream and move the
    position.  It sees nothing else of the interpreter state.  The flag
    it is called with is that of the module holding it, which
    [train(mode)] sets on every submodule; a program that sets the flag
    of an activation apart from its module is outside the model. *)
Record Activation := mkActivation {
  act_forward : bool -> (N -> Q) -> Tensor -> M N Tensor
}.

Definition Activation_forward (a : Activation) (training : bool) (X : Tensor)
  : M World Tensor :=
  fun w =>
    let (r, p) := act_forward a training (generator w) X (position w) in
    (r, mkWorld (classes w) (cuda_is_available w) (generator w) p (trace w)).

(** An activation that returns on every input, whatever the mode and the
    state of the generator, with a result of the shape of the input. *)
Definition shape_preserving (a : Activation) : Prop :=
  forall t g X p,
    exists Y p', act_forward a t g X p = (Ok Y, p') /\ shape Y = shape X.

(** An activation that is a function of its input alone. *)
Definition pure_activation (f : Tensor -> Tensor) : Activation :=
  mkActivation (fun _ _ X => ret (f X)).

(** [nn.ReLU()] *)
Definition ReLU : Activation :=
  pure_activation (fun X => mkTensor (ncols X) (map (map (f_max f_zero)) (rows X))).

(** [nn.Softmax(dim=-1)] *)
Definition softmax_row (r : list T) : list T :=
  let e := map f_exp r in
  let total := foldr f_add f_zero e in
  map (fun x => f_div x total) e.

Definition Softmax_last : Activation :=
  pure_activation (fun X => mkTensor (ncols X) (map softmax_row (rows X))).

(** [nn.GLU(dim=-1)]: the last dimension is cut in two halves [a] and
    [b] and the result is [a * sigmoid(b)], half as wide as the input;
    an odd width is refused. *)
Definition sigmoid (x : T) : T :=
  f_div (f_of_Q 1) (f_add (f_of_Q 1) (f_exp (f_mul (f_of_Q (-1)) x))).

Definition glu_row (r : list T) : list T :=
  let half := Nat.div2 (length r) in
  zip_with (fun a b => f_mul a (sigmoid b)) (take half r) (drop half r).

Definition GLU : Activation :=
  mkActivation (fun _ _ X =>
    if Z.even (ncols X)
    then ret (mkTensor (ncols X / 2) (map glu_row (rows X)))
    else raise RuntimeError).

(** ** The class [BackpropModule] *)

(** An instance: the attributes [__init__] sets, and the [training] flag
    every [nn.Module] carries (shared with the dropout and activation
    submodules, which [train(mode)] reaches). *)
Record BackpropModule := mkBackpropModule {
  input_dim : Z;
  output_dim : Z;
  hidden_units : Z;
  hidden_layers : Z;
  dropout : Dropout;
  activation : Activation;
  output_activation : Activation;
  layers : list Linear;
  device : Device;
  training : bool
}.

(** [nn.Module.__init__()]: sets up the empty registries and
    [training = True]; takes no argument and does not raise. *)
Definition Module__init__ : M World unit := log EModuleInit.

Definition torch_cuda_is_available : M World bool :=
  fun w => (Ok (cuda_is_available w), w).

(** [setattr(cls, name, f)] on a loaded class: [name] is bound to [f] in
    the attribute dictionary of [cls], whatever was bound before. *)
Definition setattr (cls name : string) (f : Method) : M World unit :=
  fun w =>
    (Ok tt,
     mkWorld (<[cls := <[name := f]> (default ∅ (classes w !! cls))]> (classes w))
             (cuda_is_available w) (generator w) (position w)
             (trace w ++ [ESetattr cls name])).

(** Modelled from the spec: the decorator [add_to] of
    [pyperch.utils.decorators], which is not among the sources.  The spec
    has the training step "replace whatever default training-step
    behavior the host framework ships, globally" and calls it a mutation
    of "global dispatch behavior of the host framework's base training
    class": [add_to(cls)] applied to a function named [name] sets the
    attribute [name] of [cls] to that function. *)
Definition add_to (cls name : string) (f : Method) : M World unit :=
  setattr cls name f.

(** [register_backprop_training_step]: the function it defines is
    [train_step_single] below, referred to in a class dictionary as
    [backprop_train_step_single]. *)
Definition register_backprop_training_step : M World unit :=
  add_to "NeuralNet" "train_step_single" backprop_train_step_single.

(** [BackpropModule.__init__].  An argument with a default is [None] when
    the caller leaves it out. *)
Definition __init__ (input_dim output_dim : Z)
    (hidden_units hidden_layers : option Z) (dropout_percent : option Q)
    (activation output_activation : option Activation) : M World BackpropModule :=
  let hidden_units := default 10 hidden_units in
  let hidden_layers := default 1 hidden_layers in
  let dropout_percent := default 0%Q dropout_percent in
  let activation := default ReLU activation in
  let output_activation := default Softmax_last output_activation in
  Module__init__ ;;
  register_backprop_training_step ;;
  let! input_dim := store "input_dim" input_dim in
  let! output_dim := store "output_dim" output_dim in
  let! hidden_units := store "hidden_units" hidden_units in
  let! hidden_layers := store "hidden_layers" hidden_layers in
  let! dropout := (let! d := nn_Dropout dropout_percent in store "dropout" d) in
  let! activation := store "activation" activation in
  let! output_activation := store "output_activation" output_activation in
  let! layers := store "layers" [] in
  let! device :=
    (let! c := torch_cuda_is_available in store "device" (if c then cuda else cpu)) in
  (* input layer *)
  let! l := nn_Linear input_dim hidden_units device in
  let layers := layers ++ [l] in
  (* hidden layers *)
  let! layers :=
    for_each (py_range 0 hidden_layers)
      (fun _ layers =>
         let! l := nn_Linear hidden_units hidden_units device in
         ret (layers ++ [l]))
      layers in
  (* output layer *)
  let! l := nn_Linear hidden_units output_dim device in
  let layers := layers ++ [l] in
  ret (mkBackpropModule input_dim output_dim hidden_units hidden_layers dropout
         activation output_activation layers device true).

(** The four kinds of call [forward] makes on the attributes of [self]. *)
Definition call_layer (self : BackpropModule) (i : Z) (X : Tensor) : M World Tensor :=
  let! l := getitem (layers self) i in
  log (ECallLayer i) ;;
  Linear_forward l X.

Definition call_activation (self : BackpropModule) (X : Tensor) : M World Tensor :=
  log ECallActivation ;; Activation_forward (activation self) (training self) X.

Definition call_dropout (self : BackpropModule) (X : Tensor) : M World Tensor :=
  log ECallDropout ;; Dropout_forward (dropout self) (training self) X.

Definition call_output_activation (self : BackpropModule) (X : Tensor) : M World Tensor :=
  log ECallOutputActivation ;;
  Activation_forward (output_activation self) (training self) X.

(** [BackpropModule.forward] (the keyword arguments are not used). *)
Definition forward (self : BackpropModule) (X : Tensor) : M World Tensor :=
  let! X := (let! Y := call_layer self 0 X in call_activation self Y) in
  let! X := call_dropout self X in
  let! X :=
    for_each (py_range 1 (hidden_layers self + 1))
      (fun i X =>
         let! X := (let! Y := call_layer self i X in call_activation self Y) in
         call_dropout self X)
      X in
  let! Y := call_layer self (hidden_layers self + 1) X in
  call_output_activation self Y.

(** ** skorch's [NeuralNet], as far as the training step uses it *)

(** Gradients of a loss with respect to the weight and the bias of each
    layer, in the order of the layer stack. *)
Definition Grads : Type := list (list (list T) * list T).

(** A loss tensor: its value and what its graph yields on [backward()]. *)
Record Loss := mkLoss {
  loss_value : T;
  loss_grads : Grads
}.

(** A net wraps a module and a criterion. *)
Record NeuralNet := mkNeuralNet {
  module_ : BackpropModule;
  criterion_ : Tensor -> Tensor -> T
}.

(** The dictionary a training step returns. *)
Record StepResult := mkStepResult {
  loss : Loss;
  y_pred : Tensor
}.

Section Training.

(** The framework's reverse-mode differentiation is not modelled: it is
    given as the gradients of the criterion at [y_pred] and [y_true] with
    respect to the parameters of the module that mapped [X] to [y_pred]. *)
Variable autograd : BackpropModule -> Tensor -> Tensor -> Tensor -> Grads.

(** What calling any other function bound to [train_step_single] does. *)
Variable other_step : Method -> Tensor * Tensor -> M (NeuralNet * World) StepResult.

Definition get_self {O} : M (O * World) O := fun s => (Ok (fst s), s).

Definition modify_self {O} (f : O -> O) : M (O * World) unit :=
  fun s => (Ok tt, (f (fst s), snd s)).

(** [module.train(mode)] *)
Definition Module_train (mode : bool) (m : BackpropModule) : BackpropModule :=
  mkBackpropModule (input_dim m) (output_dim m) (hidden_units m) (hidden_layers m)
    (dropout m) (activation m) (output_activation m) (layers m) (device m) mode.

Definition with_module (f : BackpropModule -> BackpropModule) (n : NeuralNet) : NeuralNet :=
  mkNeuralNet (f (module_ n)) (criterion_ n).

(** [NeuralNet._set_training] *)
Definition _set_training (training : bool) : M (NeuralNet * World) unit :=
  lift (log (ESetTraining training)) ;;
  modify_self (with_module (Module_train training)).

(** [skorch.dataset.unpack_data]: [X, y = data]. *)
Definition unpack_data {S} (data : Tensor * Tensor) : M S (Tensor * Tensor) := ret data.

(** [NeuralNet.infer]: calls the module on the input. *)
Definition infer (x : Tensor) : M (NeuralNet * World) Tensor :=
  lift (log EInfer) ;;
  let! self := get_self in
  lift (forward (module_ self) x).

(** [NeuralNet.get_loss]: the criterion applied to prediction and target. *)
Definition get_loss (y_pred y_true X : Tensor) (training : bool)
  : M (NeuralNet * World) Loss :=
  lift (log EGetLoss) ;;
  let! self := get_self in
  ret (mkLoss (criterion_ self y_pred y_true)
              (autograd (module_ self) X y_pred y_true)).

(** [tensor.backward()]: each parameter's [.grad] is set on the first
    pass and added to afterwards; the parameter itself is not touched. *)
Definition accumulate {A} (plus : A -> A -> A) (old : option A) (g : A) : option A :=
  match old with
  | None => Some g
  | Some o => Some (plus o g)
  end.

Definition accumulate_grad (l : Linear) (g : list (list T) * list T) : Linear :=
  mkLinear (in_features l) (out_features l) (weight l) (bias l)
    (accumulate (zip_with (zip_with f_add)) (weight_grad l) (fst g))
    (accumulate (zip_with f_add) (bias_grad l) (snd g))
    (linear_device l).

Definition backward_layers (g : Grads) (ls : list Linear) : list Linear :=
  imap (fun i l => match g !! i with
                   | Some gi => accumulate_grad l gi
                   | None => l
                   end) ls.

Definition Module_backward (g : Grads) (m : BackpropModule) : BackpropModule :=
  mkBackpropModule (input_dim m) (output_dim m) (hidden_units m) (hidden_layers m)
    (dropout m) (activation m) (output_activation m) (backward_layers g (layers m))
    (device m) (training m).

Definition backward (l : Loss) : M (NeuralNet * World) unit :=
  lift (log EBackward) ;;
  modify_self (with_module (Module_backward (loss_grads l))).

(** The function [register_backprop_training_step] defines. *)
Definition train_step_single (batch : Tensor * Tensor) : M (NeuralNet * World) StepResult :=
  _set_training true ;;
  let! (Xi, yi) := unpack_data batch in
  let! y_pred := infer Xi in
  let! loss := get_loss y_pred yi Xi true in
  backward loss ;;
  ret (mkStepResult loss y_pred).

(** ** Dispatch *)

(** What [NeuralNet.train_step_single] is bound to. *)
Definition resolve_train_step_single (w : World) : option Method :=
  classes w !! "NeuralNet" ≫= (fun d => d !! "train_step_single").

(** [net.train_step_single(batch)] for a net whose class takes the method
    from [NeuralNet]. *)
Definition call_train_step_single (batch : Tensor * Tensor)
  : M (NeuralNet * World) StepResult :=
  fun s =>
    match resolve_train_step_single (snd s) with
    | Some backprop_train_step_single => train_step_single batch s
    | Some f => other_step f batch s
    | None => (Raised AttributeError, s)
    end.

(** The operations a program can perform through this module. *)
Inductive Op :=
| Construct (input_dim output_dim : Z) (hidden_units hidden_layers : option Z)
            (dropout_percent : option Q) (activation output_activation : option Activation)
| Forward (self : BackpropModule) (X : Tensor)
| TrainStep (net : NeuralNet) (batch : Tensor * Tensor).

Definition run_op (o : Op) (w : World) : World :=
  match o with
  | Construct i o hu hl dp a oa => snd (__init__ i o hu hl dp a oa w)
  | Forward self X => snd (forward self X w)
  | TrainStep net batch => snd (snd (call_train_step_single batch (net, w)))
  end.

Definition run (ops : list Op) (w : World) : World := foldl (fun w o => run_op o w) w ops.

End Training.

(** * Specification vocabulary *)

(** [wp c s Q E]: running [c] from [s] ends in a state satisfying [Q]
    with the value returned, or [E] with the exception raised. *)
Definition wp {S A} (c : M S A) (s : S) (Q : A -> S -> Prop) (E : Exn -> S -> Prop) : Prop :=
  match c s with
  | (Ok a, s') => Q a s'
  | (Raised e, s') => E e s'
  end.

(** [emits c evs]: whatever the start, [c] appends [evs] to the log when
    it returns, and some prefix of [evs] when it raises. *)
Definition emits {A} (c : M World A) (evs : list Event) : Prop :=
  forall w,
    wp c w (fun _ w' => trace w' = trace w ++ evs)
           (fun _ w' => exists pre, pre `prefix_of` evs /\ trace w' = trace w ++ pre).

(** [keeps f c]: [c] leaves the component [f] of the state alone,
    whether it returns or raises. *)
Definition keeps {S A X} (f : S -> X) (c : M S A) : Prop :=
  forall s, f (snd (c s)) = f s.

(** The probabilities [nn.Dropout] accepts. *)
Definition valid_probability (q : Q) : Prop := (0 <= q)%Q /\ (q <= 1)%Q.

(** The dimensions [nn_Linear] lets through: sizes it can unpack, none
    negative, and storage sizes within range for weight and bias. *)
Definition fits (in_f out_f : Z) : Prop :=
  0 <= in_f < int64_bound /\ 0 <= out_f < int64_bound
  /\ 4 * (out_f * in_f) < int64_bound /\ 4 * out_f < int64_bound.

(** A tensor whose rows all have the width its shape announces, and a
    tensor of [B] such rows of width [n]. *)
Definition well_shaped (X : Tensor) : Prop :=
  Forall (fun r => Z.of_nat (length r) = ncols X) (rows X).

Definition has_shape (X : Tensor) (B n : Z) : Prop :=
  shape X = (B, n) /\ well_shaped X.

(** An activation that, whatever the mode and the state of the generator,
    returns on every well-shaped input a well-shaped tensor of the same
    shape. *)
Definition keeps_shape (a : Activation) : Prop :=
  forall t g X p,
    well_shaped X ->
    exists Y p',
      act_forward a t g X p = (Ok Y, p') /\ shape Y = shape X /\ well_shaped Y.

(** An activation that in mode [t] neither reads the generator nor moves
    its position: on each input its outcome is the same every time. *)
Definition generator_free (a : Activation) (t : bool) : Prop :=
  forall X, exists r, forall g p, act_forward a t g X p = (r, p).

(** The dimensions of a linear layer, and the parameter values of a
    module (what [parameters()] iterates over). *)
Definition dims (l : Linear) : Z * Z := (in_features l, out_features l).

Definition parameters (m : BackpropModule) : list (list (list T) * list T) :=
  map (fun l => (weight l, bias l)) (layers m).

(** The layer stack as the spec has it: an input layer, [h] hidden
    layers, an output layer. *)
Definition stack_dims (i o hu : Z) (h : nat) : list (Z * Z) :=
  [(i, hu)] ++ replicate h (hu, hu) ++ [(hu, o)].

Definition well_formed (m : BackpropModule) : Prop :=
  0 <= hidden_layers m /\
  map dims (layers m) =
    stack_dims (input_dim m) (output_dim m) (hidden_units m) (Z.to_nat (hidden_layers m)).

(** The order of calls the spec prescribes for a forward pass over [h]
    hidden layers. *)
Definition forward_sequence (h : nat) : list Event :=
  [ECallLayer 0; ECallActivation; ECallDropout]
  ++ flat_map (fun k => [ECallLayer (Z.of_nat k); ECallActivation; ECallDropout]) (seq 1 h)
  ++ [ECallLayer (Z.of_nat h + 1); ECallOutputActivation].

(** What the constructor logs when it runs to the end. *)
Definition config_attrs : list string :=
  ["input_dim"; "output_dim"; "hidden_units"; "hidden_layers"; "dropout";
   "activation"; "output_activation"; "layers"; "device"]%string.

Definition init_events (i o hu h : Z) : list Event :=
  [EModuleInit; ESetattr "NeuralNet" "train_step_single"]
  ++ map EStore config_attrs
  ++ [EAlloc i hu] ++ replicate (Z.to_nat h) (EAlloc hu hu) ++ [EAlloc hu o].

Definition is_layer_call (e : Event) : bool :=
  match e with ECallLayer _ => true | _ => false end.

Definition is_output_activation (e : Event) : bool :=
  match e with ECallOutputActivation => true | _ => false end.

Definition is_dropout (e : Event) : bool :=
  match e with ECallDropout => true | _ => false end.

Definition is_alloc (e : Event) : bool :=
  match e with EAlloc _ _ => true | _ => false end.

Definition is_store_or_alloc (e : Event) : bool :=
  match e with EStore _ | EAlloc _ _ => true | _ => false end.

Definition count (f : Event -> bool) (evs : list Event) : nat :=
  length (List.filter f evs).

(** The class dictionaries once the training step is installed. *)
Definition patched (c : gmap string (gmap string Method)) : gmap string (gmap string Method) :=
  <["NeuralNet" := <["train_step_single" := backprop_train_step_single]>
                     (default ∅ (c !! "NeuralNet"))]> c.

(** The state with more events logged. *)
Definition emit (evs : list Event) (w : World) : World :=
  mkWorld (classes w) (cuda_is_available w) (generator w) (position w) (trace w ++ evs).

(** The spec's reading of a pass without hidden layers: the input layer,
    activation and dropout, then the output layer and the output
    activation. *)
Definition two_layer_pass (self : BackpropModule) (l0 l1 : Linear) (X : Tensor)
  : M World Tensor :=
  let! Y0 := Linear_forward l0 X in
  let! A0 := Activation_forward (activation self) (training self) Y0 in
  let! X1 := Dropout_forward (dropout self) (training self) A0 in
  let! Y1 := Linear_forward l1 X1 in
  Activation_forward (output_activation self) (training self) Y1.

(** ** Further vocabulary *)

(** The body of the loop of [forward] at index [i]. *)
Definition hidden_step (self : BackpropModule) (i : Z) (X : Tensor) : M World Tensor :=
  let! X := (let! Y := call_layer self i X in call_activation self Y) in
  call_dropout self X.

(** One block of the network on a given layer: the layer, the
    activation, dropout. *)
Definition block (self : BackpropModule) (l : Linear) (X : Tensor) : M World Tensor :=
  let! Y := Linear_forward l X in
  let! A := Activation_forward (activation self) (training self) Y in
  Dropout_forward (dropout self) (training self) A.

(** A pass written over the layers themselves instead of indices: a
    block for each layer of [ls] in turn, then [lout] and the output
    activation. *)
Definition layered_pass (self : BackpropModule) (ls : list Linear) (lout : Linear)
    (X : Tensor) : M World Tensor :=
  let! X' := for_each ls (fun l X => block self l X) X in
  let! Y := Linear_forward lout X' in
  Activation_forward (output_activation self) (training self) Y.

(** Two states that differ at most in their logs, and two runs that end
    with the same outcome in such states. *)
Definition same_but_log (w1 w2 : World) : Prop :=
  classes w1 = classes w2
  /\ cuda_is_available w1 = cuda_is_available w2
  /\ generator w1 = generator w2
  /\ position w1 = position w2.

Definition agree {A} (r1 r2 : Outcome A * World) : Prop :=
  fst r1 = fst r2 /\ same_but_log (snd r1) (snd r2).

(** A computation that has the same outcome from every state and
    changes nothing of the state but the log, to which it adds the same
    events every time. *)
Definition logs_only {A} (c : M World A) : Prop :=
  exists r evs, forall w, c w = (r, emit evs w).

(** Dropout that passes its input through: evaluation mode, or [p = 0]. *)
Definition dropout_is_identity (self : BackpropModule) : Prop :=
  Qeq_bool (p_drop (dropout self)) 0 || negb (training self) = true.

(** The number of layer allocations logged so far, and the device the
    constructor picks in a state. *)
Definition num_alloc (w : World) : nat := count is_alloc (trace w).

Definition device_of (w : World) : Device :=
  if cuda_is_available w then cuda else cpu.

(** [steady w w']: from [w] to [w'] the CUDA flag has not changed and no
    layer has been allocated. *)
Definition steady (w w' : World) : Prop :=
  cuda_is_available w' = cuda_is_available w /\ num_alloc w' = num_alloc w.

(** A layer as [nn.Linear] returns it: on the given device, without
    gradients. *)
Definition fresh_on (d : Device) (l : Linear) : Prop :=
  linear_device l = d /\ weight_grad l = None /\ bias_grad l = None.

(** A layer whose parameter tensors have the shapes its dimensions
    announce, the number of scalars in a layer, and in a module. *)
Definition consistent (l : Linear) : Prop :=
  Z.of_nat (length (weight l)) = out_features l
  /\ Forall (fun r => Z.of_nat (length r) = in_features l) (weight l)
  /\ Z.of_nat (length (bias l)) = out_features l.

Definition numel (l : Linear) : Z :=
  foldr Z.add 0 (map (fun r => Z.of_nat (length r)) (weight l))
  + Z.of_nat (length (bias l)).

Definition num_parameters (m : BackpropModule) : Z :=
  foldr Z.add 0 (map numel (layers m)).

End Network.

(** * The model at work

    Concrete runs over the rationals: a fresh interpreter state, a small
    network written out by hand, and one built by the constructor. *)

Section Concrete.

#[local] Existing Instance Q_float.

Definition w0 : World :=
  mkWorld ∅ false (fun n => (Z.of_N (n mod 7) # 8)%Q) 0 [].

Definition m1 : BackpropModule (T:=Q) :=
  mkBackpropModule 2 3 2 1 (mkDropout (1 # 2)) ReLU Softmax_last
    [ mkLinear 2 2 [[1; 0]; [0; 1]]%Q [0; 0]%Q None None cpu;
      mkLinear 2 2 [[1; 1]; [1; -1]]%Q [0; 1]%Q None None cpu;
      mkLinear 2 3 [[1; 0]; [0; 1]; [1; 1]]%Q [0; 0; 0]%Q None None cpu ]
    cpu true.

Definition X1 : Tensor (T:=Q) := mkTensor 2 [[1; 2]; [3; 4]]%Q.

Definition y1 : Tensor (T:=Q) := mkTensor 3 [[1; 0; 0]; [0; 1; 0]]%Q.

(** A batch of two samples with four features. *)
Definition X4 : Tensor (T:=Q) := mkTensor 4 [[1; 2; 3; 4]; [5; 6; 7; 8]]%Q.

(** Sum of squared errors, and a gradient of ones for every parameter. *)
Definition sse (a b : Tensor (T:=Q)) : Q :=
  foldr Qplus 0%Q
    (zip_with (fun x y => ((x - y) * (x - y))%Q) (concat (rows a)) (concat (rows b))).

Definition ones (m : BackpropModule (T:=Q)) (_ _ _ : Tensor (T:=Q)) : Grads (T:=Q) :=
  map (fun l => (map (map (fun _ => 1%Q)) (weight l), map (fun _ => 1%Q) (bias l)))
      (layers m).

Definition net1 : NeuralNet (T:=Q) := mkNeuralNet m1 sse.

(** The output layer of [m1], its input layer, and a two-layer module
    whose [hidden_layers] is -2. *)
Definition l_out : Linear (T:=Q) :=
  mkLinear 2 3 [[1; 0]; [0; 1]; [1; 1]]%Q [0; 0; 0]%Q None None cpu.

Definition l_in : Linear (T:=Q) :=
  mkLinear 2 2 [[1; 0]; [0; 1]]%Q [0; 0]%Q None None cpu.

Definition l_mid : Linear (T:=Q) :=
  mkLinear 2 2 [[1; 1]; [1; -1]]%Q [0; 1]%Q None None cpu.

Definition m2 : BackpropModule (T:=Q) :=
  mkBackpropModule 2 3 2 (-2) (mkDropout (1 # 2)) ReLU Softmax_last
    [l_in; l_out] cpu true.

(** Two training steps of [net1] on the same batch, and the value a run
    returned ([d] when it raised). *)
Definition returned {A} (d : A) (o : Outcome A) : A :=
  match o with
  | Ok a => a
  | Raised _ => d
  end.

Definition no_result : StepResult (T:=Q) := mkStepResult (mkLoss 0%Q []) X1.

Definition step1 := train_step_single ones (X1, y1) (net1, w0).

Definition step2 := train_step_single ones (X1, y1) (snd step1).

End Concrete.

(** * Facts *)

Section NetworkFacts.

Context {T : Type} `{Float T}.

Implicit Types (self m : BackpropModule (T:=T)) (X Xi yi : Tensor (T:=T)).
Implicit Types (l : Linear (T:=T)) (ls : list (Linear (T:=T))) (g : Grads (T:=T)).
Implicit Types (net : NeuralNet (T:=T)) (batch : Tensor (T:=T) * Tensor (T:=T)).

(** * Reasoning principles *)

Lemma wp_ret {S A} (a : A) (s : S) Q E : Q a s -> wp (ret a) s Q E.
Proof. intros HQ. exact HQ. Qed.

Lemma wp_raise {S A} (e : Exn) (s : S) (Q : A -> S -> Prop) E : E e s -> wp (raise e) s Q E.
Proof. intros HE. exact HE. Qed.

Lemma wp_bind {S A B} (c : M S A) (k : A -> M S B) s Q E :
  wp c s (fun a s' => wp (k a) s' Q E) E -> wp (bind c k) s Q E.
Proof.
  unfold wp, bind. destruct (c s) as [[a|e] s']; auto.
Qed.

Lemma wp_mono {S A} (c : M S A) s (Q Q' : A -> S -> Prop) (E E' : Exn -> S -> Prop) :
  wp c s Q E ->
  (forall a s', Q a s' -> Q' a s') ->
  (forall e s', E e s' -> E' e s') ->
  wp c s Q' E'.
Proof.
  unfold wp. destruct (c s) as [[a|e] s']; auto.
Qed.

Lemma wp_post {S A} (c : M S A) s (Q Q' : A -> S -> Prop) E :
  wp c s Q E -> (forall a s', Q a s' -> Q' a s') -> wp c s Q' E.
Proof. intros Hwp HQ. eapply wp_mono; eauto. Qed.

Lemma wp_ok {S A} (c : M S A) s Q E a s' :
  wp c s Q E -> c s = (Ok a, s') -> Q a s'.
Proof. unfold wp. intros Hwp Hrun. rewrite Hrun in Hwp. exact Hwp. Qed.

Lemma wp_raised {S A} (c : M S A) s Q E e s' :
  wp c s Q E -> c s = (Raised e, s') -> E e s'.
Proof. unfold wp. intros Hwp Hrun. rewrite Hrun in Hwp. exact Hwp. Qed.

Lemma wp_returns {S A} (c : M S A) s Q :
  wp c s Q (fun _ _ => False) -> exists a s', c s = (Ok a, s') /\ Q a s'.
Proof.
  unfold wp. destruct (c s) as [[a|e] s']; [eauto | tauto].
Qed.

Lemma wp_and {S A} (c : M S A) s Q1 Q2 E1 E2 :
  wp c s Q1 E1 -> wp c s Q2 E2 ->
  wp c s (fun a s' => Q1 a s' /\ Q2 a s') (fun e s' => E1 e s' /\ E2 e s').
Proof.
  unfold wp. destruct (c s) as [[a|e] s']; auto.
Qed.

(** A loop is handled with an invariant on the accumulator and the
    state, indexed by the items still to come. *)
Lemma wp_for_each {S A B} (body : A -> B -> M S B) (I : list A -> B -> S -> Prop) E :
  forall xs acc s,
    I xs acc s ->
    (forall x rest acc s, I (x :: rest) acc s -> wp (body x acc) s (I rest) E) ->
    wp (for_each xs body acc) s (I []) E.
Proof.
  induction xs as [|x xs IH]; intros acc s HI Hbody; simpl.
  - apply wp_ret, HI.
  - apply wp_bind. eapply wp_mono; [apply Hbody, HI | | auto].
    intros acc' s' HI'. apply IH; auto.
Qed.

Lemma emits_ret {A} (a : A) : emits (ret a) [].
Proof. intros w. apply wp_ret. by rewrite app_nil_r. Qed.

Lemma emits_raise {A} (e : Exn) evs : emits (@raise World A e) evs.
Proof.
  intros w. apply wp_raise. exists []. split; [apply prefix_nil | by rewrite app_nil_r].
Qed.

Lemma emits_log e : emits (log e) [e].
Proof. intros w. reflexivity. Qed.

Lemma emits_bind {A B} (c : M World A) (k : A -> M World B) e1 e2 :
  emits c e1 -> (forall a, emits (k a) e2) -> emits (bind c k) (e1 ++ e2).
Proof.
  intros Hc Hk w. apply wp_bind. eapply wp_mono; [apply Hc | |]; simpl.
  - intros a w1 Hw1. eapply wp_mono; [apply Hk | |]; simpl.
    + intros b w2 Hw2. by rewrite Hw2, Hw1, app_assoc.
    + intros e w2 (pre & Hpre & Hw2). exists (e1 ++ pre). split.
      * by apply prefix_app.
      * by rewrite Hw2, Hw1, app_assoc.
  - intros e w1 (pre & Hpre & Hw1). exists pre. split; [|done].
    by apply prefix_app_r.
Qed.

Lemma emits_eq {A} (c : M World A) e1 e2 : emits c e1 -> e1 = e2 -> emits c e2.
Proof. by intros Hc <-. Qed.

Lemma emits_for_each {A B} (body : A -> B -> M World B) (ev : A -> list Event) :
  (forall x acc, emits (body x acc) (ev x)) ->
  forall xs acc, emits (for_each xs body acc) (flat_map ev xs).
Proof.
  intros Hbody. induction xs as [|x xs IH]; intros acc; simpl.
  - apply emits_ret.
  - apply emits_bind; auto.
Qed.

Lemma keeps_ret {S A} {X : Type} (f : S -> X) (a : A) : keeps f (ret a).
Proof. by intros s. Qed.

Lemma keeps_raise {S A} {X : Type} (f : S -> X) (e : Exn) : keeps f (@raise S A e).
Proof. by intros s. Qed.

Lemma keeps_bind {S A B} {X : Type} (f : S -> X) (c : M S A) (k : A -> M S B) :
  keeps f c -> (forall a, keeps f (k a)) -> keeps f (bind c k).
Proof.
  intros Hc Hk s. unfold bind. specialize (Hc s).
  destruct (c s) as [[a|e] s1]; simpl in *; [|done].
  by rewrite Hk.
Qed.

Lemma keeps_for_each {S A B} {X : Type} (f : S -> X) (body : A -> B -> M S B) :
  (forall x acc, keeps f (body x acc)) ->
  forall xs acc, keeps f (for_each xs body acc).
Proof.
  intros Hbody. induction xs as [|x xs IH]; intros acc; simpl.
  - apply keeps_ret.
  - apply keeps_bind; auto.
Qed.

Lemma keeps_if {S A} {X : Type} (f : S -> X) (b : bool) (c1 c2 : M S A) :
  keeps f c1 -> keeps f c2 -> keeps f (if b then c1 else c2).
Proof. by destruct b. Qed.

Lemma emits_if {A} (b : bool) (c1 c2 : M World A) evs :
  emits c1 evs -> emits c2 evs -> emits (if b then c1 else c2) evs.
Proof. by destruct b. Qed.

Lemma length_py_range lo hi : length (py_range lo hi) = Z.to_nat (hi - lo).
Proof. unfold py_range. by rewrite length_map, length_seq. Qed.

Lemma py_range_empty lo hi : hi <= lo -> py_range lo hi = [].
Proof.
  intros Hle. unfold py_range. replace (Z.to_nat (hi - lo)) with 0%nat by lia. done.
Qed.

Lemma py_range_lookup lo hi (k : nat) :
  (k < Z.to_nat (hi - lo))%nat -> py_range lo hi !! k = Some (lo + Z.of_nat k).
Proof.
  intros Hk. unfold py_range. rewrite list_lookup_fmap, lookup_seq_lt by done. done.
Qed.

Lemma elem_of_py_range lo hi i : i ∈ py_range lo hi <-> lo <= i < hi.
Proof.
  unfold py_range. rewrite list_elem_of_fmap. split.
  - intros (k & -> & Hk). apply elem_of_seq in Hk. lia.
  - intros Hi. exists (Z.to_nat (i - lo)). split; [lia|].
    apply elem_of_seq. lia.
Qed.

(** ** The torch primitives *)

Lemma wp_log e w (Q : unit -> World -> Prop) E :
  Q tt (mkWorld (classes w) (cuda_is_available w) (generator w) (position w)
                (trace w ++ [e])) ->
  wp (log e) w Q E.
Proof. intros HQ. exact HQ. Qed.

Lemma wp_store {A} attr (v : A) w (Q : A -> World -> Prop) E :
  (forall w', Q v w') -> wp (store attr v) w Q E.
Proof. intros HQ. apply HQ. Qed.

Lemma emits_store {A} attr (v : A) : emits (store attr v) [EStore attr].
Proof. intros w. reflexivity. Qed.

Lemma emits_bind_store {A B} attr (v : A) (k : A -> M World B) evs :
  emits (k v) evs -> emits (bind (store attr v) k) (EStore attr :: evs).
Proof.
  intros Hk w.
  specialize (Hk (mkWorld (classes w) (cuda_is_available w) (generator w) (position w)
                          (trace w ++ [EStore attr]))).
  unfold wp in *.
  change (bind (store attr v) k w)
    with (k v (mkWorld (classes w) (cuda_is_available w) (generator w) (position w)
                       (trace w ++ [EStore attr]))).
  destruct (k v _) as [[b|e] w']; simpl in *.
  - by rewrite Hk, <- app_assoc.
  - destruct Hk as (pre & Hpre & Hw'). exists (EStore attr :: pre). split.
    + by apply prefix_cons.
    + by rewrite Hw', <- app_assoc.
Qed.

Lemma keeps_classes_log e : keeps classes (log e).
Proof. by intros w. Qed.

Lemma keeps_classes_store {A} attr (v : A) : keeps classes (store attr v).
Proof. by intros w. Qed.

Lemma emits_draw n : emits (draw n) [].
Proof. intros w. unfold wp, draw. simpl. by rewrite app_nil_r. Qed.

Lemma keeps_classes_draw n : keeps classes (draw n).
Proof. by intros w. Qed.

Lemma wp_draw n w (Q : list T -> World -> Prop) E :
  (forall xs w', Q xs w') -> wp (draw n) w Q E.
Proof. intros HQ. apply HQ. Qed.

Lemma emits_draw_rows r c : emits (draw_rows r c) [].
Proof.
  induction r as [|r IH]; simpl.
  - apply emits_ret.
  - change (@nil Event) with (@nil Event ++ ([] ++ [])).
    apply emits_bind; [apply emits_draw|]. intros x.
    apply emits_bind; [apply IH|]. intros xs. apply emits_ret.
Qed.

Lemma keeps_classes_draw_rows r c : keeps classes (draw_rows r c).
Proof.
  induction r as [|r IH]; simpl.
  - apply keeps_ret.
  - apply keeps_bind; [apply keeps_classes_draw|]. intros x.
    apply keeps_bind; [apply IH|]. intros xs. apply keeps_ret.
Qed.

Lemma wp_draw_rows r c w (Q : list (list T) -> World -> Prop) E :
  (forall xs w', Q xs w') -> wp (draw_rows r c) w Q E.
Proof.
  revert w Q. induction r as [|r IH]; intros w Q HQ; simpl.
  - apply wp_ret, HQ.
  - apply wp_bind, wp_draw. intros x w1.
    apply wp_bind, IH. intros xs w2. apply wp_ret, HQ.
Qed.

(** The three ways a call of [nn.Linear] can go. *)
Lemma nn_Linear_cases i o d :
  (fits i o
   /\ nn_Linear i o d
      = bind (log (EAlloc i o))
          (fun _ => let! w := draw_rows (Z.to_nat o) (Z.to_nat i) in
                    let! b := draw (Z.to_nat o) in
                    ret (mkLinear i o w b None None d)))
  \/ (~ fits i o /\ is_int64 i && is_int64 o = false
      /\ nn_Linear i o d = raise TypeError)
  \/ (~ fits i o /\ is_int64 i && is_int64 o = true
      /\ nn_Linear i o d = raise RuntimeError).
Proof.
  unfold nn_Linear, fits, is_int64, storage_overflows, int64_bound.
  destruct ((_ <=? i) && (i <? _) && ((_ <=? o) && (o <? _))) eqn:H64; simpl.
  - destruct ((i <? 0) || (o <? 0)) eqn:Hneg.
    + right. right. split; [|done]. apply orb_true_iff in Hneg. lia.
    + destruct ((_ <=? 4 * (o * i)) || (_ <=? 4 * o)) eqn:Hov.
      * right. right. split; [|done]. apply orb_true_iff in Hov. lia.
      * left. split; [|done].
        apply orb_false_iff in Hneg, Hov. apply andb_true_iff in H64 as [Hi Ho].
        apply andb_true_iff in Hi, Ho. lia.
  - right. left. split; [|done].
    apply andb_false_iff in H64. rewrite !andb_false_iff in H64. lia.
Qed.

(** [nn.Linear] returns a layer of the dimensions asked for when they
    fit, and raises otherwise; what it raises is not a [ValueError]. *)
Lemma wp_nn_Linear i o d w :
  wp (nn_Linear i o d) w
     (fun l _ => in_features l = i /\ out_features l = o /\ fits i o)
     (fun e _ => e <> ValueError /\ ~ fits i o).
Proof.
  destruct (nn_Linear_cases i o d) as [[Hf ->] | [(Hf & _ & ->) | (Hf & _ & ->)]];
    [ | by apply wp_raise | by apply wp_raise ].
  apply wp_bind, wp_log. apply wp_bind, wp_draw_rows. intros xs w1.
  apply wp_bind, wp_draw. intros b w2. by apply wp_ret.
Qed.

Lemma emits_nn_Linear i o d : emits (nn_Linear i o d) [EAlloc i o].
Proof.
  destruct (nn_Linear_cases i o d) as [[_ ->] | [(_ & _ & ->) | (_ & _ & ->)]];
    [ | apply emits_raise | apply emits_raise ].
  change [EAlloc i o] with ([EAlloc i o] ++ ([] ++ ([] ++ []))).
  apply emits_bind; [apply emits_log|]. intros _.
  apply emits_bind; [apply emits_draw_rows|]. intros xs.
  apply emits_bind; [apply emits_draw|]. intros b. apply emits_ret.
Qed.

Lemma keeps_classes_nn_Linear i o d : keeps classes (nn_Linear i o d).
Proof.
  destruct (nn_Linear_cases i o d) as [[_ ->] | [(_ & _ & ->) | (_ & _ & ->)]];
    [ | apply keeps_raise | apply keeps_raise ].
  apply keeps_bind; [apply keeps_classes_log|]. intros _.
  apply keeps_bind; [apply keeps_classes_draw_rows|]. intros xs.
  apply keeps_bind; [apply keeps_classes_draw|]. intros b. apply keeps_ret.
Qed.

Lemma wp_nn_Dropout q w :
  wp (nn_Dropout q) w
     (fun d w' => p_drop d = q /\ valid_probability q /\ w' = w)
     (fun e w' => e = ValueError /\ ~ valid_probability q /\ w' = w).
Proof.
  unfold nn_Dropout, valid_probability.
  destruct (Qle_bool 0 q) eqn:H0; destruct (Qle_bool q 1) eqn:H1; simpl;
    try (apply wp_raise; split; [done|]; split; [|done]; intros [Ha Hb];
         apply Qle_bool_iff in Ha; apply Qle_bool_iff in Hb; congruence).
  apply wp_ret. apply Qle_bool_iff in H0. apply Qle_bool_iff in H1. done.
Qed.

Lemma emits_nn_Dropout q : emits (nn_Dropout q) [].
Proof. unfold nn_Dropout. apply emits_if; [apply emits_raise | apply emits_ret]. Qed.

Lemma keeps_classes_nn_Dropout q : keeps classes (nn_Dropout q).
Proof. unfold nn_Dropout. apply keeps_if; [apply keeps_raise | apply keeps_ret]. Qed.

(** ** The constructor *)

Lemma wp_add_to cls name f w (Q : unit -> World -> Prop) E :
  Q tt (mkWorld (<[cls := <[name := f]> (default ∅ (classes w !! cls))]> (classes w))
                (cuda_is_available w) (generator w) (position w)
                (trace w ++ [ESetattr cls name])) ->
  wp (add_to cls name f) w Q E.
Proof. intros HQ. apply HQ. Qed.

Lemma wp_cuda w (Q : bool -> World -> Prop) E :
  (forall b w', Q b w') -> wp torch_cuda_is_available w Q E.
Proof. intros HQ. apply HQ. Qed.

Lemma emits_cuda : emits torch_cuda_is_available [].
Proof. intros w. unfold wp. simpl. by rewrite app_nil_r. Qed.

Lemma keeps_classes_cuda : keeps classes torch_cuda_is_available.
Proof. by intros w. Qed.

Lemma flat_map_singleton {A B} (x : B) (l : list A) :
  flat_map (fun _ => [x]) l = replicate (length l) x.
Proof. induction l as [|a l IH]; simpl; [done | by rewrite IH]. Qed.

(** What a constructed instance holds, and why construction can fail. *)
Lemma wp_init i o hu hl dp a oa w :
  wp (__init__ i o hu hl dp a oa) w
     (fun m _ =>
        input_dim m = i /\ output_dim m = o
        /\ hidden_units m = default 10 hu /\ hidden_layers m = default 1 hl
        /\ p_drop (dropout m) = default 0%Q dp
        /\ activation m = default ReLU a
        /\ output_activation m = default Softmax_last oa
        /\ training m = true
        /\ map dims (layers m)
           = stack_dims i o (default 10 hu) (Z.to_nat (default 1 hl))
        /\ valid_probability (default 0%Q dp)
        /\ 0 <= i /\ 0 <= default 10 hu /\ 0 <= o
        /\ fits i (default 10 hu) /\ fits (default 10 hu) o)
     (fun e _ =>
        (e = ValueError /\ ~ valid_probability (default 0%Q dp))
        \/ (e <> ValueError /\ valid_probability (default 0%Q dp)
            /\ ~ (fits i (default 10 hu) /\ fits (default 10 hu) (default 10 hu)
                  /\ fits (default 10 hu) o))).
Proof.
  unfold __init__, Module__init__, register_backprop_training_step.
  set (hu' := default 10 hu). set (h := default 1 hl). set (q := default 0%Q dp).
  apply wp_bind, wp_log. apply wp_bind, wp_add_to.
  do 4 (apply wp_bind, wp_store; intros ?).
  apply wp_bind, wp_bind.
  eapply wp_mono; [apply wp_nn_Dropout | | ]; simpl;
    [ intros d ? (Hd & Hq & _) | intros e ? (-> & Hq & _); by left ].
  apply wp_store. intros ?.
  do 3 (apply wp_bind, wp_store; intros ?).
  apply wp_bind, wp_bind, wp_cuda. intros c ?. apply wp_store. intros ?.
  apply wp_bind.
  eapply wp_mono; [apply wp_nn_Linear | | ]; simpl;
    [ intros l0 ? (Hi0 & Ho0 & Hf0)
    | intros e ? (Hne & Hbad); right; split; [done|]; split; [exact Hq|]; tauto ].
  apply wp_bind.
  eapply wp_mono;
    [ apply (wp_for_each _
        (fun rest acc _ =>
           (length rest <= Z.to_nat h)%nat /\
           map dims acc = (i, hu') :: replicate (Z.to_nat h - length rest) (hu', hu'))
        (fun e _ => e <> ValueError /\ ~ fits hu' hu'))
    | | ]; simpl.
  - rewrite length_py_range. replace (h - 0) with h by lia.
    split; [lia|]. rewrite Nat.sub_diag. simpl. unfold dims. by rewrite Hi0, Ho0.
  - intros x rest acc ? (Hlen & Hacc). simpl in Hlen.
    apply wp_bind.
    eapply wp_mono; [apply wp_nn_Linear | | ]; simpl.
    + intros l ? (Hil & Hol & _). apply wp_ret. split; [lia|].
      rewrite map_app, Hacc. simpl. unfold dims at 1. rewrite Hil, Hol.
      replace (Z.to_nat h - length rest)%nat
        with (S (Z.to_nat h - S (length rest))) by lia.
      rewrite replicate_S_end. done.
    + intros e ? Hbad. exact Hbad.
  - intros ls ? (_ & Hls). rewrite Nat.sub_0_r in Hls.
    apply wp_bind.
    eapply wp_mono; [apply wp_nn_Linear | | ]; simpl;
      [ intros l ? (Hil & Hol & Hf1)
      | intros e ? (Hne & Hbad); right; split; [done|]; split; [exact Hq|]; tauto ].
    apply wp_ret. simpl.
    pose proof Hf0 as (? & ? & _). pose proof Hf1 as (_ & ? & _).
    repeat match goal with |- _ /\ _ => split end; try done; try lia.
    rewrite map_app, Hls. simpl. unfold dims at 1. by rewrite Hil, Hol.
  - intros e ? (Hne & Hbad). right. split; [done|]. split; [exact Hq|]. tauto.
Qed.

Lemma keeps_wp {A} {X : Type} (f : World -> X) (c : M World A) w :
  keeps f c -> wp c w (fun _ w' => f w' = f w) (fun _ w' => f w' = f w).
Proof.
  intros Hc. specialize (Hc w). unfold wp. by destruct (c w) as [[a|e] w'].
Qed.

(** The constructor's log and its effect on the class dictionaries: the
    first two steps always run; what follows them may stop early. *)
Lemma init_trace i o hu hl dp a oa w :
  wp (__init__ i o hu hl dp a oa) w
     (fun _ w' =>
        classes w' = patched (classes w) /\
        trace w' = trace w ++ init_events i o (default 10 hu) (default 1 hl))
     (fun _ w' =>
        classes w' = patched (classes w) /\
        exists pre,
          pre `prefix_of` drop 2 (init_events i o (default 10 hu) (default 1 hl)) /\
          trace w' = trace w ++ [EModuleInit; ESetattr "NeuralNet" "train_step_single"] ++ pre).
Proof.
  unfold __init__, Module__init__, register_backprop_training_step.
  apply wp_bind, wp_log. apply wp_bind, wp_add_to.
  match goal with |- wp ?c ?w2 _ _ =>
    assert (Hev : emits c (drop 2 (init_events i o (default 10 hu) (default 1 hl))));
    [ | assert (Hcl : keeps classes c);
        [ | pose proof (wp_and _ _ _ _ _ _ (Hev w2) (keeps_wp classes c w2 Hcl)) as Hw;
            eapply wp_mono; [exact Hw | simpl | simpl] ] ]
  end.
  - eapply emits_eq.
    + do 4 apply emits_bind_store.
      apply emits_bind.
      { apply emits_bind; [apply emits_nn_Dropout|]. intros ?. apply emits_store. }
      intros ?.
      do 3 (apply emits_bind; [apply emits_store|]; intros ?).
      apply emits_bind.
      { apply emits_bind; [apply emits_cuda|]. intros ?. apply emits_store. }
      intros ?.
      apply emits_bind; [apply emits_nn_Linear|]. intros ?.
      apply emits_bind.
      { apply (emits_for_each _ (fun _ => [EAlloc (default 10 hu) (default 10 hu)] ++ [])).
        intros x acc. apply emits_bind; [apply emits_nn_Linear|]. intros ?.
        apply emits_ret. }
      intros ?.
      apply emits_bind; [apply emits_nn_Linear|]. intros ?. apply emits_ret.
    + unfold init_events. simpl. rewrite flat_map_singleton, length_py_range.
      by replace (default 1 hl - 0) with (default 1 hl) by lia.
  - do 4 (apply keeps_bind; [apply keeps_classes_store|]; intros ?).
    apply keeps_bind.
    { apply keeps_bind; [apply keeps_classes_nn_Dropout|]. intros ?.
      apply keeps_classes_store. }
    intros ?.
    do 3 (apply keeps_bind; [apply keeps_classes_store|]; intros ?).
    apply keeps_bind.
    { apply keeps_bind; [apply keeps_classes_cuda|]. intros ?.
      apply keeps_classes_store. }
    intros ?.
    apply keeps_bind; [apply keeps_classes_nn_Linear|]. intros ?.
    apply keeps_bind.
    { apply keeps_for_each. intros x acc.
      apply keeps_bind; [apply keeps_classes_nn_Linear|]. intros ?. apply keeps_ret. }
    intros ?.
    apply keeps_bind; [apply keeps_classes_nn_Linear|]. intros ?. apply keeps_ret.
  - intros m w' [Htr Hcl']. split; [exact Hcl'|].
    rewrite Htr. simpl. rewrite <- !app_assoc. done.
  - intros e w' [(pre & Hpre & Htr) Hcl']. split; [exact Hcl'|].
    exists pre. split; [exact Hpre|]. rewrite Htr. simpl. by rewrite <- !app_assoc.
Qed.

(** ** The forward pass *)

Lemma emits_getitem {A} (l : list A) i : emits (getitem l i) [].
Proof.
  unfold getitem. apply emits_if; [|apply emits_raise].
  destruct (l !! _); [apply emits_ret | apply emits_raise].
Qed.

Lemma keeps_getitem {S A} {X : Type} (f : S -> X) (l : list A) i : keeps f (getitem l i).
Proof.
  unfold getitem. apply keeps_if; [|apply keeps_raise].
  destruct (l !! _); [apply keeps_ret | apply keeps_raise].
Qed.

Lemma emits_Linear_forward l X : emits (Linear_forward l X) [].
Proof. unfold Linear_forward. apply emits_if; [apply emits_ret | apply emits_raise]. Qed.

Lemma keeps_classes_Linear_forward l X : keeps classes (Linear_forward l X).
Proof. unfold Linear_forward. apply keeps_if; [apply keeps_ret | apply keeps_raise]. Qed.

Lemma emits_Dropout_forward d t X : emits (Dropout_forward d t X) [].
Proof.
  unfold Dropout_forward. apply emits_if; [apply emits_ret|].
  apply emits_if; [apply emits_ret|].
  intros w. unfold wp. simpl. by rewrite app_nil_r.
Qed.

Lemma keeps_classes_Dropout_forward d t X : keeps classes (Dropout_forward d t X).
Proof.
  unfold Dropout_forward. apply keeps_if; [apply keeps_ret|].
  apply keeps_if; [apply keeps_ret|]. by intros w.
Qed.

(** An activation touches the position of the generator and nothing
    else. *)
Lemma Activation_forward_run (a : Activation) t X w :
  Activation_forward a t X w
  = (fst (act_forward a t (generator w) X (position w)),
     mkWorld (classes w) (cuda_is_available w) (generator w)
             (snd (act_forward a t (generator w) X (position w))) (trace w)).
Proof.
  unfold Activation_forward. by destruct (act_forward a t (generator w) X (position w)).
Qed.

Lemma emits_Activation_forward (a : Activation) t X : emits (Activation_forward a t X) [].
Proof.
  intros w. unfold wp. rewrite Activation_forward_run.
  destruct (fst _); simpl; [by rewrite app_nil_r|].
  exists []. by rewrite app_nil_r.
Qed.

Lemma keeps_classes_Activation_forward (a : Activation) t X :
  keeps classes (Activation_forward a t X).
Proof. intros w. by rewrite Activation_forward_run. Qed.

Lemma emits_call_layer self i X : emits (call_layer self i X) [ECallLayer i].
Proof.
  unfold call_layer. change [ECallLayer i] with ([] ++ [ECallLayer i] ++ []).
  apply emits_bind; [apply emits_getitem|]. intros l.
  apply emits_bind; [apply emits_log|]. intros _. apply emits_Linear_forward.
Qed.

Lemma emits_call_activation self X : emits (call_activation self X) [ECallActivation].
Proof.
  unfold call_activation. change [ECallActivation] with ([ECallActivation] ++ []).
  apply emits_bind; [apply emits_log|]. intros _. apply emits_Activation_forward.
Qed.

Lemma emits_call_output_activation self X :
  emits (call_output_activation self X) [ECallOutputActivation].
Proof.
  unfold call_output_activation.
  change [ECallOutputActivation] with ([ECallOutputActivation] ++ []).
  apply emits_bind; [apply emits_log|]. intros _. apply emits_Activation_forward.
Qed.

Lemma emits_call_dropout self X : emits (call_dropout self X) [ECallDropout].
Proof.
  unfold call_dropout. change [ECallDropout] with ([ECallDropout] ++ []).
  apply emits_bind; [apply emits_log|]. intros _. apply emits_Dropout_forward.
Qed.

Lemma keeps_classes_call_layer self i X : keeps classes (call_layer self i X).
Proof.
  unfold call_layer. apply keeps_bind; [apply keeps_getitem|]. intros l.
  apply keeps_bind; [apply keeps_classes_log|]. intros _.
  apply keeps_classes_Linear_forward.
Qed.

Lemma keeps_classes_call_dropout self X : keeps classes (call_dropout self X).
Proof.
  unfold call_dropout. apply keeps_bind; [apply keeps_classes_log|]. intros _.
  apply keeps_classes_Dropout_forward.
Qed.

Lemma keeps_classes_call_activation self X : keeps classes (call_activation self X).
Proof.
  unfold call_activation. apply keeps_bind; [apply keeps_classes_log|]. intros _.
  apply keeps_classes_Activation_forward.
Qed.

Lemma keeps_classes_call_output_activation self X :
  keeps classes (call_output_activation self X).
Proof.
  unfold call_output_activation. apply keeps_bind; [apply keeps_classes_log|]. intros _.
  apply keeps_classes_Activation_forward.
Qed.

Lemma keeps_classes_forward self X : keeps classes (forward self X).
Proof.
  unfold forward.
  apply keeps_bind.
  { apply keeps_bind; [apply keeps_classes_call_layer|]. intros Y.
    apply keeps_classes_call_activation. }
  intros X1. apply keeps_bind; [apply keeps_classes_call_dropout|]. intros X2.
  apply keeps_bind.
  { apply keeps_for_each. intros i X3.
    apply keeps_bind.
    { apply keeps_bind; [apply keeps_classes_call_layer|]. intros Y.
      apply keeps_classes_call_activation. }
    intros X4. apply keeps_classes_call_dropout. }
  intros X3. apply keeps_bind; [apply keeps_classes_call_layer|]. intros Y.
  apply keeps_classes_call_output_activation.
Qed.

(** The log of a forward pass, read off the code. *)
Lemma emits_forward_range self X :
  emits (forward self X)
        ([ECallLayer 0; ECallActivation; ECallDropout]
         ++ flat_map (fun i => [ECallLayer i; ECallActivation; ECallDropout])
                     (py_range 1 (hidden_layers self + 1))
         ++ [ECallLayer (hidden_layers self + 1); ECallOutputActivation]).
Proof.
  unfold forward. eapply emits_eq.
  - apply emits_bind.
    { apply emits_bind; [apply emits_call_layer|]. intros Y. apply emits_call_activation. }
    intros X1. apply emits_bind; [apply emits_call_dropout|]. intros X2.
    apply emits_bind.
    { apply (emits_for_each _
               (fun i => ([ECallLayer i] ++ [ECallActivation]) ++ [ECallDropout])).
      intros i X3. apply emits_bind.
      { apply emits_bind; [apply emits_call_layer|]. intros Y.
        apply emits_call_activation. }
      intros X4. apply emits_call_dropout. }
    intros X3. apply emits_bind; [apply emits_call_layer|]. intros Y.
    apply emits_call_output_activation.
  - reflexivity.
Qed.

Lemma py_range_from_1 h :
  0 <= h -> py_range 1 (h + 1) = map Z.of_nat (seq 1 (Z.to_nat h)).
Proof.
  intros Hh. unfold py_range. replace (h + 1 - 1) with h by lia.
  rewrite <- fmap_S_seq, <- list_fmap_compose.
  apply list_fmap_ext. intros _ k _. simpl. lia.
Qed.

Lemma flat_map_map {A B C} (f : B -> list C) (g : A -> B) (l : list A) :
  flat_map f (map g l) = flat_map (fun x => f (g x)) l.
Proof. induction l as [|x l IH]; simpl; [done | by rewrite IH]. Qed.

Lemma emits_forward self X :
  0 <= hidden_layers self ->
  emits (forward self X) (forward_sequence (Z.to_nat (hidden_layers self))).
Proof.
  intros Hh. eapply emits_eq; [apply emits_forward_range|].
  unfold forward_sequence. rewrite py_range_from_1, flat_map_map by done.
  by rewrite Z2Nat.id.
Qed.

(** ** Shapes *)

Lemma length_stack_dims i o hu h : length (stack_dims i o hu h) = (h + 2)%nat.
Proof. unfold stack_dims. rewrite !length_app, length_replicate. simpl. lia. Qed.

Lemma stack_dims_first i o hu h : stack_dims i o hu h !! 0%nat = Some (i, hu).
Proof. done. Qed.

Lemma stack_dims_hidden i o hu h k :
  (1 <= k <= h)%nat -> stack_dims i o hu h !! k = Some (hu, hu).
Proof.
  intros Hk. destruct k as [|k]; [lia|]. unfold stack_dims. simpl.
  rewrite lookup_app_l by (rewrite length_replicate; lia).
  apply lookup_replicate_2. lia.
Qed.

Lemma stack_dims_last i o hu h : stack_dims i o hu h !! S h = Some (hu, o).
Proof.
  unfold stack_dims. simpl.
  rewrite lookup_app_r by (rewrite length_replicate; lia).
  by rewrite length_replicate, Nat.sub_diag.
Qed.

Lemma length_layers self :
  well_formed self -> length (layers self) = (Z.to_nat (hidden_layers self) + 2)%nat.
Proof.
  intros [_ Hd]. apply (f_equal length) in Hd.
  by rewrite length_map, length_stack_dims in Hd.
Qed.

(** Calling layer [i] on an input of the width it expects returns a
    tensor of its output width, with the same number of rows. *)
Lemma wp_call_layer self i X w d E :
  0 <= i ->
  map dims (layers self) !! Z.to_nat i = Some d ->
  ncols X = fst d ->
  wp (call_layer self i X) w (fun Y _ => shape Y = (fst (shape X), snd d)) E.
Proof.
  intros Hi Hd HX. unfold call_layer, getitem.
  pose proof (lookup_lt_Some _ _ _ Hd) as Hlt. rewrite length_map in Hlt.
  change (map dims (layers self)) with (dims <$> layers self) in Hd.
  rewrite list_lookup_fmap in Hd.
  destruct (layers self !! Z.to_nat i) as [l|] eqn:Hl; [|done].
  injection Hd as <-.
  replace (- Z.of_nat (length (layers self)) <=? i) with true by (symmetry; lia).
  replace (i <? Z.of_nat (length (layers self))) with true by (symmetry; lia).
  replace (i <? 0) with false by (symmetry; lia). simpl. rewrite Hl.
  apply wp_bind, wp_ret. apply wp_bind, wp_log.
  unfold Linear_forward. simpl in HX. rewrite HX, Z.eqb_refl.
  apply wp_ret. unfold shape. simpl. by rewrite length_map.
Qed.

Lemma wp_Dropout_forward d t X w E :
  wp (Dropout_forward d t X) w (fun Y _ => shape Y = shape X) E.
Proof.
  unfold Dropout_forward. destruct (Qeq_bool (p_drop d) 0 || negb t).
  - by apply wp_ret.
  - destruct (Qeq_bool (p_drop d) 1).
    + apply wp_ret. unfold shape. simpl. by rewrite length_map.
    + unfold wp, shape. simpl. by rewrite length_imap.
Qed.

Lemma wp_call_dropout self X w E :
  wp (call_dropout self X) w (fun Y _ => shape Y = shape X) E.
Proof. unfold call_dropout. apply wp_bind, wp_log. apply wp_Dropout_forward. Qed.

Lemma wp_Activation_forward (a : Activation) t X w E :
  shape_preserving a ->
  wp (Activation_forward a t X) w (fun Y _ => shape Y = shape X) E.
Proof.
  intros Ha. destruct (Ha t (generator w) X (position w)) as (Y & p' & Hrun & HY).
  unfold wp. rewrite Activation_forward_run, Hrun. exact HY.
Qed.

Lemma wp_call_activation self X w E :
  shape_preserving (activation self) ->
  wp (call_activation self X) w (fun Y _ => shape Y = shape X) E.
Proof.
  intros Ha. unfold call_activation. apply wp_bind, wp_log.
  by apply wp_Activation_forward.
Qed.

Lemma wp_call_output_activation self X w E :
  shape_preserving (output_activation self) ->
  wp (call_output_activation self X) w (fun Y _ => shape Y = shape X) E.
Proof.
  intros Ha. unfold call_output_activation. apply wp_bind, wp_log.
  by apply wp_Activation_forward.
Qed.

Lemma shape_ncols X a b : shape X = (a, b) -> ncols X = b.
Proof. unfold shape. by intros [= _ ->]. Qed.

(** On a well-formed module with shape-preserving activations, the
    forward pass returns, and maps width [input_dim] to width
    [output_dim]. *)
Lemma wp_forward self X w :
  well_formed self ->
  shape_preserving (activation self) ->
  shape_preserving (output_activation self) ->
  ncols X = input_dim self ->
  wp (forward self X) w
     (fun Y _ => shape Y = (fst (shape X), output_dim self))
     (fun _ _ => False).
Proof.
  intros Hwf Hact Hout HX. pose proof Hwf as [Hh Hd].
  set (B := fst (shape X)). set (hu := hidden_units self).
  unfold forward.
  apply wp_bind, wp_bind.
  eapply wp_post;
    [ apply (wp_call_layer self 0 X w (input_dim self, hu)); [lia | by rewrite Hd | done]
    | ].
  intros Y0 w0 HY0. cbv beta in HY0. fold B in HY0. simpl in HY0.
  eapply wp_post; [apply wp_call_activation, Hact | ].
  intros A0 w0' HA0. cbv beta in HA0. rewrite HY0 in HA0.
  apply wp_bind.
  eapply wp_post; [apply wp_call_dropout | ]. intros X1 w1 HX1. cbv beta in HX1.
  rewrite HA0 in HX1.
  apply wp_bind.
  eapply wp_post;
    [ apply (wp_for_each _
        (fun rest X' _ =>
           Forall (fun i => 1 <= i <= hidden_layers self) rest /\ shape X' = (B, hu))
        (fun _ _ => False))
    | ]; simpl.
  - split; [|done]. apply Forall_forall. intros i Hi.
    apply elem_of_py_range in Hi. lia.
  - intros i rest X' w' (Hrest & HX'). apply Forall_cons in Hrest as [Hi Hrest].
    apply wp_bind, wp_bind.
    eapply wp_post;
      [ apply (wp_call_layer self i X' w' (hu, hu));
          [ lia | rewrite Hd; apply stack_dims_hidden; lia | by apply shape_ncols in HX' ]
      | ].
    intros Y w2 HY. cbv beta in HY. rewrite HX' in HY. simpl in HY.
    eapply wp_post; [apply wp_call_activation, Hact | ].
    intros A w2' HA. cbv beta in HA. rewrite HY in HA.
    eapply wp_post; [apply wp_call_dropout | ]. intros X2 w3 HX2. cbv beta in HX2.
    rewrite HA in HX2. done.
  - intros X2 w2 (_ & HX2). apply wp_bind.
    eapply wp_post;
      [ apply (wp_call_layer self (hidden_layers self + 1) X2 w2 (hu, output_dim self));
          [ lia
          | rewrite Hd; replace (Z.to_nat (hidden_layers self + 1))
              with (S (Z.to_nat (hidden_layers self))) by lia;
            apply stack_dims_last
          | by apply shape_ncols in HX2 ]
      | ].
    intros Y w3 HY. cbv beta in HY. rewrite HX2 in HY. simpl in HY.
    eapply wp_post; [apply wp_call_output_activation, Hout | ].
    intros Z w3' HZ. cbv beta in HZ. by rewrite HZ, HY.
Qed.

Lemma ReLU_shape_preserving : shape_preserving ReLU.
Proof.
  intros t g X p. eexists _, _. split; [reflexivity|].
  unfold shape. simpl. by rewrite length_map.
Qed.

Lemma Softmax_last_shape_preserving : shape_preserving Softmax_last.
Proof.
  intros t g X p. eexists _, _. split; [reflexivity|].
  unfold shape. simpl. by rewrite length_map.
Qed.

(** ** Counting calls in the prescribed sequence *)

Lemma count_app f (l1 l2 : list Event) : count f (l1 ++ l2) = (count f l1 + count f l2)%nat.
Proof. unfold count. by rewrite List.filter_app, length_app. Qed.

Lemma count_flat_map {A} f (g : A -> list Event) c (l : list A) :
  (forall x, count f (g x) = c) -> count f (flat_map g l) = (length l * c)%nat.
Proof.
  intros Hg. induction l as [|x l IH]; simpl; [done|].
  by rewrite count_app, Hg, IH.
Qed.

Lemma count_forward_sequence h :
  count is_layer_call (forward_sequence h) = (h + 2)%nat
  /\ count is_output_activation (forward_sequence h) = 1%nat
  /\ count is_dropout (forward_sequence h) = (h + 1)%nat.
Proof.
  unfold forward_sequence.
  rewrite !count_app,
    (count_flat_map is_layer_call _ 1), (count_flat_map is_output_activation _ 0),
    (count_flat_map is_dropout _ 1), length_seq by done.
  unfold count. simpl. lia.
Qed.

(** ** The training step *)

Lemma emit_emit e1 e2 w : emit e2 (emit e1 w) = emit (e1 ++ e2) w.
Proof. unfold emit. simpl. by rewrite app_assoc. Qed.

(** The training step in closed form: it runs the forward pass in
    training mode; if that returns, the loss is the criterion at the
    prediction and the gradients go to the layers. *)
Lemma train_step_single_run autograd net Xi yi w :
  train_step_single autograd (Xi, yi) (net, w) =
    let net1 := with_module (Module_train true) net in
    match forward (module_ net1) Xi (emit [ESetTraining true; EInfer] w) with
    | (Ok yp, w2) =>
        let l := mkLoss (criterion_ net yp yi) (autograd (module_ net1) Xi yp yi) in
        (Ok (mkStepResult l yp),
         (with_module (Module_backward (loss_grads l)) net1,
          emit [EGetLoss; EBackward] w2))
    | (Raised e, w2) => (Raised e, (net1, w2))
    end.
Proof.
  unfold train_step_single, _set_training, unpack_data, infer, get_loss, backward.
  unfold bind, lift, modify_self, get_self, ret, log, emit. simpl.
  rewrite <- app_assoc. simpl.
  destruct (forward _ Xi _) as [[yp|e] w2]; simpl; [|done].
  by rewrite <- app_assoc.
Qed.

Lemma parameters_backward g m : parameters (Module_backward g m) = parameters m.
Proof.
  unfold parameters, Module_backward, backward_layers. simpl.
  apply list_eq. intros k.
  change (map ?f ?l) with (f <$> l). rewrite !list_lookup_fmap, list_lookup_imap.
  destruct (layers m !! k) as [l|]; simpl; [|done]. by destruct (g !! k).
Qed.

Lemma dims_backward g ls : map dims (backward_layers g ls) = map dims ls.
Proof.
  unfold backward_layers. apply list_eq. intros k.
  change (map ?f ?l) with (f <$> l). rewrite !list_lookup_fmap, list_lookup_imap.
  destruct (ls !! k) as [l|]; simpl; [|done]. by destruct (g !! k).
Qed.

Lemma backward_layers_lookup g ls k l :
  ls !! k = Some l ->
  backward_layers g ls !! k =
    Some (match g !! k with Some gk => accumulate_grad l gk | None => l end).
Proof. intros Hl. unfold backward_layers. by rewrite list_lookup_imap, Hl. Qed.

Lemma well_formed_train mode m : well_formed (Module_train mode m) <-> well_formed m.
Proof. done. Qed.

(** ** Dispatch *)

Lemma resolve_patched c :
  patched c !! "NeuralNet"%string ≫= (fun d => d !! "train_step_single"%string)
  = Some backprop_train_step_single.
Proof. unfold patched. rewrite lookup_insert_eq. simpl. by rewrite lookup_insert_eq. Qed.

Lemma resolve_init i o hu hl dp a oa w :
  resolve_train_step_single (snd (__init__ i o hu hl dp a oa w))
  = Some backprop_train_step_single.
Proof.
  pose proof (init_trace i o hu hl dp a oa w) as Hw. unfold wp in Hw.
  unfold resolve_train_step_single.
  destruct (__init__ i o hu hl dp a oa w) as [[m|e] w']; simpl;
    destruct Hw as [-> _]; apply resolve_patched.
Qed.

Lemma classes_train_step_single autograd batch net w :
  classes (snd (snd (train_step_single autograd batch (net, w)))) = classes w.
Proof.
  destruct batch as [Xi yi]. rewrite train_step_single_run. simpl.
  pose proof (keeps_classes_forward (Module_train true (module_ net)) Xi
                (emit [ESetTraining true; EInfer] w)) as Hk.
  destruct (forward _ Xi _) as [[yp|e] w2]; simpl in *; exact Hk.
Qed.

Lemma call_patched autograd other_step batch net w :
  resolve_train_step_single w = Some backprop_train_step_single ->
  call_train_step_single autograd other_step batch (net, w)
  = train_step_single autograd batch (net, w).
Proof. intros Hr. unfold call_train_step_single. simpl. by rewrite Hr. Qed.

Lemma resolve_run_op autograd other_step o w :
  resolve_train_step_single w = Some backprop_train_step_single ->
  resolve_train_step_single (run_op autograd other_step o w)
  = Some backprop_train_step_single.
Proof.
  intros Hr. destruct o as [i o hu hl dp a oa | self X | net batch]; simpl.
  - apply resolve_init.
  - unfold resolve_train_step_single. by rewrite keeps_classes_forward.
  - rewrite call_patched by done.
    unfold resolve_train_step_single. by rewrite classes_train_step_single.
Qed.

Lemma resolve_run autograd other_step ops w :
  resolve_train_step_single w = Some backprop_train_step_single ->
  resolve_train_step_single (run autograd other_step ops w)
  = Some backprop_train_step_single.
Proof.
  revert w. induction ops as [|o ops IH]; intros w Hr; simpl; [done|].
  apply IH, resolve_run_op, Hr.
Qed.

(** ** Construction goes through on dimensions that fit *)

Lemma fits_int64 i o : fits i o -> is_int64 i = true /\ is_int64 o = true.
Proof.
  unfold fits, is_int64, int64_bound. intros (Hi & Ho & _).
  split; apply andb_true_iff; lia.
Qed.

Lemma init_returns i o hu hl dp a oa w :
  valid_probability (default 0%Q dp) ->
  fits i (default 10 hu) -> fits (default 10 hu) (default 10 hu) ->
  fits (default 10 hu) o ->
  exists self w',
    __init__ i o hu hl dp a oa w = (Ok self, w')
    /\ input_dim self = i /\ output_dim self = o
    /\ hidden_units self = default 10 hu /\ hidden_layers self = default 1 hl
    /\ activation self = default ReLU a
    /\ output_activation self = default Softmax_last oa
    /\ map dims (layers self) = stack_dims i o (default 10 hu) (Z.to_nat (default 1 hl))
    /\ classes w' = patched (classes w)
    /\ trace w' = trace w ++ init_events i o (default 10 hu) (default 1 hl).
Proof.
  intros Hq Hf0 Hf1 Hf2.
  pose proof (wp_and _ _ _ _ _ _ (wp_init i o hu hl dp a oa w)
                (init_trace i o hu hl dp a oa w)) as Hw.
  apply wp_returns. eapply wp_mono; [exact Hw | |]; simpl.
  - intros m w' [(? & ? & ? & ? & ? & ? & ? & ? & ? & _) [? ?]]. tauto.
  - intros e w' [[[_ Hbad] | (_ & _ & Hbad)] _]; tauto.
Qed.

Lemma init_invalid_dropout i o hu hl dp a oa w :
  ~ valid_probability (default 0%Q dp) ->
  __init__ i o hu hl dp a oa w =
    (Raised ValueError,
     mkWorld (patched (classes w)) (cuda_is_available w) (generator w) (position w)
       (trace w ++ [EModuleInit; ESetattr "NeuralNet" "train_step_single";
                    EStore "input_dim"; EStore "output_dim"; EStore "hidden_units";
                    EStore "hidden_layers"])).
Proof.
  intros Hq.
  assert (Hb : negb (Qle_bool 0 (default 0%Q dp)) || negb (Qle_bool (default 0%Q dp) 1)
               = true).
  { destruct (Qle_bool 0 (default 0%Q dp)) eqn:H0;
      destruct (Qle_bool (default 0%Q dp) 1) eqn:H1; try done.
    exfalso. apply Hq. split; by apply Qle_bool_iff. }
  unfold __init__, Module__init__, register_backprop_training_step, add_to, setattr,
    store, nn_Dropout, bind, log, ret, raise. simpl.
  rewrite Hb. simpl. unfold patched. by rewrite <- !app_assoc.
Qed.

(** A forward pass or a training step allocates nothing. *)
Lemma count_prefix f pre evs : pre `prefix_of` evs -> count f evs = 0%nat -> count f pre = 0%nat.
Proof. intros [k ->]. rewrite count_app. lia. Qed.

Lemma forward_allocates_nothing self X w :
  count is_alloc (trace (snd (forward self X w))) = count is_alloc (trace w).
Proof.
  pose proof (emits_forward_range self X w) as Hw. unfold wp in Hw.
  match type of Hw with context [flat_map ?g ?l] =>
    assert (Hz : count is_alloc
                   ([ECallLayer 0; ECallActivation; ECallDropout] ++ flat_map g l
                    ++ [ECallLayer (hidden_layers self + 1); ECallOutputActivation])
                 = 0%nat)
      by (rewrite !count_app, (count_flat_map is_alloc _ 0) by done; unfold count; simpl; lia)
  end.
  destruct (forward self X w) as [[Y|e] w']; simpl.
  - rewrite Hw, count_app, Hz. lia.
  - destruct Hw as (pre & Hpre & ->). rewrite count_app, (count_prefix _ _ _ Hpre Hz). lia.
Qed.

(** ** The constructor, state by state *)

Lemma steady_refl w : steady w w.
Proof. by split. Qed.

Lemma steady_emit w0 w e :
  is_alloc e = false -> steady w0 w -> steady w0 (emit [e] w).
Proof.
  intros He [Hc Hn]. split; [exact Hc|].
  unfold num_alloc, emit in *. cbn [trace]. rewrite count_app. unfold count at 2.
  simpl. rewrite He. simpl. lia.
Qed.

Lemma wp_steady_log w0 e w (Q : unit -> World -> Prop) E :
  is_alloc e = false -> steady w0 w ->
  (forall w', steady w0 w' -> Q tt w') -> wp (log e) w Q E.
Proof. intros He Hs HQ. apply (HQ (emit [e] w)). by apply steady_emit. Qed.

Lemma wp_steady_store {A} w0 attr (v : A) w (Q : A -> World -> Prop) E :
  steady w0 w -> (forall w', steady w0 w' -> Q v w') -> wp (store attr v) w Q E.
Proof. intros Hs HQ. apply (HQ (emit [EStore attr] w)). by apply steady_emit. Qed.

Lemma wp_steady_add_to w0 cls name f w (Q : unit -> World -> Prop) E :
  steady w0 w -> (forall w', steady w0 w' -> Q tt w') -> wp (add_to cls name f) w Q E.
Proof.
  intros [Hc Hn] HQ. apply HQ. split; [exact Hc|].
  unfold num_alloc in *. cbn [trace]. rewrite count_app. unfold count at 2. simpl. lia.
Qed.

Lemma wp_steady_nn_Dropout q w (Q : Dropout -> World -> Prop) (E : Exn -> World -> Prop) :
  (forall d, valid_probability q -> p_drop d = q -> Q d w) ->
  (~ valid_probability q -> E ValueError w) ->
  wp (nn_Dropout q) w Q E.
Proof.
  intros HQ HE. eapply wp_mono; [apply wp_nn_Dropout | |]; simpl.
  - intros d w' (Hp & Hq & ->). by apply HQ.
  - intros e w' (-> & Hq & ->). by apply HE.
Qed.

Lemma wp_cuda_at w (Q : bool -> World -> Prop) E :
  Q (cuda_is_available w) w -> wp torch_cuda_is_available w Q E.
Proof. intros HQ. exact HQ. Qed.

Lemma draw_frame n w :
  exists xs : list T, draw n w = (Ok xs, snd (draw n w))
    /\ length xs = n
    /\ trace (snd (draw n w)) = trace w
    /\ cuda_is_available (snd (draw n w)) = cuda_is_available w.
Proof.
  eexists. split; [reflexivity|]. split; [|done]. by rewrite length_map, length_seq.
Qed.

Lemma draw_rows_frame r c w :
  exists xs : list (list T), fst (draw_rows r c w) = Ok xs
    /\ length xs = r /\ Forall (fun x => length x = c) xs
    /\ trace (snd (draw_rows r c w)) = trace w
    /\ cuda_is_available (snd (draw_rows r c w)) = cuda_is_available w.
Proof.
  revert w. induction r as [|r IH]; intros w.
  - exists []. by repeat split.
  - change (draw_rows (S r) c w)
      with (bind (draw c) (fun x => bind (draw_rows r c) (fun xs => ret (x :: xs))) w).
    destruct (draw_frame c w) as (x0 & Hd & Hx0 & Ht0 & Hc0).
    destruct (IH (snd (draw c w))) as (xs & Hr & Hlen & Hall & Ht & Hc).
    unfold bind. rewrite Hd.
    destruct (draw_rows r c (snd (draw c w))) as [[ys|e] w2]; simpl in *; [|discriminate].
    injection Hr as ->.
    eexists. split; [reflexivity|]. split; [simpl; by rewrite Hlen|].
    split; [by apply Forall_cons|]. split; congruence.
Qed.

(** [nn.Linear] either returns a fresh layer on the device asked for,
    logging one allocation, or raises and leaves the state as it was. *)
Lemma wp_nn_Linear_detail i o d w :
  wp (nn_Linear i o d) w
     (fun l w' => dims l = (i, o) /\ fresh_on d l /\ consistent l /\ fits i o
                  /\ cuda_is_available w' = cuda_is_available w
                  /\ num_alloc w' = S (num_alloc w))
     (fun e w' => w' = w /\ ~ fits i o
                  /\ ((e = TypeError /\ is_int64 i && is_int64 o = false)
                      \/ (e = RuntimeError /\ is_int64 i && is_int64 o = true))).
Proof.
  destruct (nn_Linear_cases i o d) as [[Hf ->] | [(Hf & H64 & ->) | (Hf & H64 & ->)]];
    [ | apply wp_raise; by eauto | apply wp_raise; by eauto ].
  pose proof Hf as (Hi & Ho & _).
  apply wp_bind, wp_log. apply wp_bind.
  destruct (draw_rows_frame (Z.to_nat o) (Z.to_nat i) (emit [EAlloc i o] w))
    as (xs & Hr & Hlen & Hall & Ht & Hc).
  unfold wp at 1. change (mkWorld _ _ _ _ (trace w ++ [EAlloc i o])) with (emit [EAlloc i o] w).
  destruct (draw_rows (Z.to_nat o) (Z.to_nat i) (emit [EAlloc i o] w)) as [[ys|e] w2];
    simpl in Hr, Ht, Hc; [|discriminate].
  injection Hr as ->.
  apply wp_bind. unfold wp at 1. cbn [draw]. apply wp_ret.
  unfold fresh_on, consistent, dims, num_alloc. cbn [trace cuda_is_available in_features
    out_features linear_device weight_grad bias_grad weight bias].
  rewrite Ht, Hc, count_app, length_map, length_seq. unfold count at 2. simpl.
  repeat split; try lia; try apply Hf.
  eapply Forall_impl; [exact Hall|]. simpl. intros r ->. lia.
Qed.

(** What the constructor leaves behind in each of its outcomes: an
    instance, or a failure of [nn.Dropout], of the input layer, of a
    hidden layer, or of the output layer. *)
Lemma wp_init_detail i o hu hl dp a oa w :
  let hu' := default 10 hu in
  let n := Z.to_nat (default 1 hl) in
  wp (__init__ i o hu hl dp a oa) w
     (fun self w' =>
        device self = device_of w
        /\ Forall (fun l => fresh_on (device_of w) l /\ consistent l) (layers self)
        /\ num_alloc w' = (num_alloc w + n + 2)%nat)
     (fun e w' =>
        (e = ValueError /\ ~ valid_probability (default 0%Q dp)
         /\ num_alloc w' = num_alloc w)
        \/ (valid_probability (default 0%Q dp) /\ ~ fits i hu'
            /\ num_alloc w' = num_alloc w
            /\ ((e = TypeError /\ is_int64 i && is_int64 hu' = false)
                \/ (e = RuntimeError /\ is_int64 i && is_int64 hu' = true)))
        \/ (valid_probability (default 0%Q dp) /\ fits i hu' /\ ~ fits hu' hu'
            /\ e = RuntimeError /\ (num_alloc w' <= num_alloc w + n)%nat)
        \/ (valid_probability (default 0%Q dp) /\ fits i hu' /\ ~ fits hu' o
            /\ num_alloc w' = (num_alloc w + 1 + n)%nat
            /\ ((e = TypeError /\ is_int64 o = false)
                \/ (e = RuntimeError /\ is_int64 o = true)))).
Proof.
  intros hu' n. unfold __init__, Module__init__, register_backprop_training_step.
  fold hu'. set (h := default 1 hl). set (q := default 0%Q dp).
  apply wp_bind, (wp_steady_log w); [done | apply steady_refl | intros w1 Hs].
  apply wp_bind, (wp_steady_add_to w); [exact Hs | clear w1 Hs; intros w1 Hs].
  do 4 (apply wp_bind, (wp_steady_store w); [exact Hs | clear w1 Hs; intros w1 Hs]).
  apply wp_bind, wp_bind, wp_steady_nn_Dropout;
    [ intros d Hq Hd | intros Hq; left; destruct Hs; done ].
  apply (wp_steady_store w); [exact Hs | clear w1 Hs; intros w1 Hs].
  do 3 (apply wp_bind, (wp_steady_store w); [exact Hs | clear w1 Hs; intros w1 Hs]).
  apply wp_bind, wp_bind, wp_cuda_at.
  replace (if cuda_is_available w1 then cuda else cpu) with (device_of w)
    by (unfold device_of; by rewrite (proj1 Hs)).
  apply (wp_steady_store w); [exact Hs | clear w1 Hs; intros w1 [Hc1 Hn1]].
  apply wp_bind.
  eapply wp_mono; [apply wp_nn_Linear_detail | |]; simpl;
    [ intros l0 w2 (_ & Hf0 & Hk0 & Hfit0 & Hc2 & Hn2)
    | intros e w2 (-> & Hbad & He); right; left; done ].
  destruct (fits_int64 _ _ Hfit0) as [_ H64].
  apply wp_bind.
  eapply wp_mono;
    [ apply (wp_for_each _
        (fun rest acc s =>
           (length rest <= n)%nat
           /\ Forall (fun l => fresh_on (device_of w) l /\ consistent l) acc
           /\ cuda_is_available s = cuda_is_available w
           /\ num_alloc s = (num_alloc w + 1 + (n - length rest))%nat)
        (fun e s => e = RuntimeError /\ ~ fits hu' hu'
                    /\ (num_alloc s <= num_alloc w + n)%nat))
    | | ]; simpl.
  - rewrite length_py_range. replace (h - 0) with h by lia. fold n.
    split; [lia|]. split; [by apply Forall_singleton|].
    split; [congruence|]. lia.
  - intros x rest acc s (Hlen & Hacc & Hcs & Hns). simpl in Hlen.
    apply wp_bind.
    eapply wp_mono; [apply wp_nn_Linear_detail | |]; simpl.
    + intros l s' (_ & Hf & Hk & _ & Hcs' & Hns'). apply wp_ret.
      split; [lia|]. split; [apply Forall_app; split; [done | by apply Forall_singleton]|].
      split; [congruence|]. lia.
    + intros e s' (-> & Hbad & [[_ He] | [-> _]]).
      * rewrite H64 in He. discriminate.
      * split; [done|]. split; [done|]. lia.
  - intros ls0 s (_ & Hls & Hcs & Hns). rewrite Nat.sub_0_r in Hns.
    apply wp_bind.
    eapply wp_mono; [apply wp_nn_Linear_detail | |]; simpl.
    + intros l s' (_ & Hf & Hk & _ & _ & Hns'). apply wp_ret. simpl.
      split; [done|]. split; [apply Forall_app; split; [done | by apply Forall_singleton]|].
      lia.
    + intros e s' (-> & Hbad & He). right. right. right.
      split; [done|]. split; [done|]. split; [done|]. split; [exact Hns|].
      rewrite H64 in He. exact He.
  - intros e s (-> & Hbad & Hn). right. right. left. done.
Qed.

(** ** Indexing the layer stack *)

Lemma call_layer_at self i X w l :
  0 <= i -> layers self !! Z.to_nat i = Some l ->
  call_layer self i X w = Linear_forward l X (emit [ECallLayer i] w).
Proof.
  intros Hi Hl. pose proof (lookup_lt_Some _ _ _ Hl) as Hlt.
  unfold call_layer, getitem.
  replace (- Z.of_nat (length (layers self)) <=? i) with true by (symmetry; lia).
  replace (i <? Z.of_nat (length (layers self))) with true by (symmetry; lia).
  replace (i <? 0) with false by (symmetry; lia). simpl. by rewrite Hl.
Qed.

Lemma call_layer_wrapped self i X w l :
  i < 0 -> - Z.of_nat (length (layers self)) <= i ->
  layers self !! Z.to_nat (i + Z.of_nat (length (layers self))) = Some l ->
  call_layer self i X w = Linear_forward l X (emit [ECallLayer i] w).
Proof.
  intros Hi Hlo Hl. unfold call_layer, getitem.
  replace (- Z.of_nat (length (layers self)) <=? i) with true by (symmetry; lia).
  replace (i <? Z.of_nat (length (layers self))) with true by (symmetry; lia).
  replace (i <? 0) with true by (symmetry; lia). simpl. by rewrite Hl.
Qed.

Lemma call_layer_out_of_range self i X w :
  i < - Z.of_nat (length (layers self)) \/ Z.of_nat (length (layers self)) <= i ->
  call_layer self i X w = (Raised IndexError, w).
Proof.
  intros Hi. unfold call_layer, getitem.
  destruct (- Z.of_nat (length (layers self)) <=? i) eqn:H1;
    destruct (i <? Z.of_nat (length (layers self))) eqn:H2; simpl; try done.
  exfalso. lia.
Qed.

Lemma bind_assoc {S A B C} (c : M S A) (k1 : A -> M S B) (k2 : B -> M S C) s :
  bind (bind c k1) k2 s = bind c (fun a => bind (k1 a) k2) s.
Proof. unfold bind. by destruct (c s) as [[a|e] s']. Qed.

Lemma forward_unfold self X w :
  forward self X w
  = bind (hidden_step self 0 X)
      (fun X1 =>
         bind (for_each (py_range 1 (hidden_layers self + 1)) (hidden_step self) X1)
           (fun X2 =>
              bind (call_layer self (hidden_layers self + 1) X2)
                   (call_output_activation self))) w.
Proof.
  symmetry.
  apply (bind_assoc (bind (call_layer self 0 X) (call_activation self)) (call_dropout self)).
Qed.

Lemma init_first_layer i o hu hl dp a oa w self w' :
  __init__ i o hu hl dp a oa w = (Ok self, w') ->
  exists l0 ls, layers self = l0 :: ls /\ dims l0 = (i, default 10 hu).
Proof.
  intros Hrun.
  pose proof (wp_ok _ _ _ _ _ _ (wp_init i o hu hl dp a oa w) Hrun)
    as (_ & _ & _ & _ & _ & _ & _ & _ & Hd & _).
  destruct (layers self) as [|l0 ls]; [discriminate|].
  injection Hd as Hi0 Ho0 _. exists l0, ls. unfold dims. by rewrite Hi0, Ho0.
Qed.

(** ** The forward pass without its log *)

Lemma same_but_log_refl w : same_but_log w w.
Proof. by repeat split. Qed.

Lemma same_but_log_emit_l evs w1 w2 :
  same_but_log w1 w2 -> same_but_log (emit evs w1) w2.
Proof. intros Hs. exact Hs. Qed.

Lemma agree_bind {A B} (c1 c2 : M World A) (k1 k2 : A -> M World B) w1 w2 :
  agree (c1 w1) (c2 w2) ->
  (forall a w1' w2', same_but_log w1' w2' -> agree (k1 a w1') (k2 a w2')) ->
  agree (bind c1 k1 w1) (bind c2 k2 w2).
Proof.
  intros [Hr Hs] Hk. unfold bind.
  destruct (c1 w1) as [[a1|e1] w1'], (c2 w2) as [[a2|e2] w2']; simpl in *;
    try discriminate.
  - injection Hr as ->. by apply Hk.
  - injection Hr as ->. split; [reflexivity | exact Hs].
Qed.

Lemma agree_Linear_forward l X w1 w2 :
  same_but_log w1 w2 -> agree (Linear_forward l X w1) (Linear_forward l X w2).
Proof.
  intros Hs. unfold Linear_forward. by destruct (ncols X =? in_features l).
Qed.

Lemma agree_Dropout_forward d t X w1 w2 :
  same_but_log w1 w2 -> agree (Dropout_forward d t X w1) (Dropout_forward d t X w2).
Proof.
  intros (Hc & Ha & Hg & Hp). unfold Dropout_forward.
  destruct (Qeq_bool (p_drop d) 0 || negb t); [by repeat split|].
  destruct (Qeq_bool (p_drop d) 1); [by repeat split|].
  unfold agree, same_but_log. simpl. rewrite Hc, Ha, Hg, Hp. by repeat split.
Qed.

Lemma agree_Activation_forward (a : Activation) t X w1 w2 :
  same_but_log w1 w2 ->
  agree (Activation_forward a t X w1) (Activation_forward a t X w2).
Proof.
  intros (Hc & Ha & Hg & Hp). rewrite !Activation_forward_run.
  unfold agree, same_but_log. simpl. rewrite Hc, Ha, Hg, Hp. by repeat split.
Qed.

Lemma agree_call_layer self j l X w1 w2 :
  (forall w, call_layer self j X w = Linear_forward l X (emit [ECallLayer j] w)) ->
  same_but_log w1 w2 ->
  agree (call_layer self j X w1) (Linear_forward l X w2).
Proof.
  intros Hcall Hs. rewrite Hcall. apply agree_Linear_forward.
  by apply same_but_log_emit_l.
Qed.

Lemma agree_call_activation self X w1 w2 :
  same_but_log w1 w2 ->
  agree (call_activation self X w1)
        (Activation_forward (activation self) (training self) X w2).
Proof.
  intros Hs. unfold call_activation, bind at 1, log.
  apply agree_Activation_forward. exact Hs.
Qed.

Lemma agree_call_output_activation self X w1 w2 :
  same_but_log w1 w2 ->
  agree (call_output_activation self X w1)
        (Activation_forward (output_activation self) (training self) X w2).
Proof.
  intros Hs. unfold call_output_activation, bind at 1, log.
  apply agree_Activation_forward. exact Hs.
Qed.

Lemma agree_call_dropout self X w1 w2 :
  same_but_log w1 w2 ->
  agree (call_dropout self X w1) (Dropout_forward (dropout self) (training self) X w2).
Proof.
  intros Hs. unfold call_dropout, bind at 1, log.
  apply agree_Dropout_forward. exact Hs.
Qed.

Lemma agree_hidden_step self i l X w1 w2 :
  same_but_log w1 w2 -> 0 <= i -> layers self !! Z.to_nat i = Some l ->
  agree (hidden_step self i X w1) (block self l X w2).
Proof.
  intros Hs Hi Hl. unfold hidden_step, block. rewrite bind_assoc.
  apply agree_bind.
  { apply agree_call_layer; [|done]. intros w. by apply call_layer_at. }
  intros Y w1' w2' Hs'. apply agree_bind; [by apply agree_call_activation|].
  intros A w1'' w2'' Hs''. by apply agree_call_dropout.
Qed.

Lemma agree_loop self :
  forall (ls : list Linear) (a : nat) X' w1 w2,
    same_but_log w1 w2 ->
    (forall j l, ls !! j = Some l -> layers self !! (a + j)%nat = Some l) ->
    agree (for_each (map Z.of_nat (seq a (length ls))) (hidden_step self) X' w1)
          (for_each ls (fun l X => block self l X) X' w2).
Proof.
  induction ls as [|l ls IH]; intros a X' w1 w2 Hs Hall; simpl.
  - by split.
  - apply agree_bind.
    + apply agree_hidden_step; [done | lia |].
      rewrite Nat2Z.id. rewrite <- (Nat.add_0_r a). by apply Hall.
    + intros X'' w1' w2' Hs'. apply IH; [done|].
      intros j l' Hj. replace (S a + j)%nat with (a + S j)%nat by lia. by apply Hall.
Qed.

Lemma agree_last_call self j l X1 w1 w2 :
  (forall w, call_layer self j X1 w = Linear_forward l X1 (emit [ECallLayer j] w)) ->
  same_but_log w1 w2 ->
  agree (bind (call_layer self j X1) (call_output_activation self) w1)
        (bind (Linear_forward l X1)
              (Activation_forward (output_activation self) (training self)) w2).
Proof.
  intros Hcall Hs. apply agree_bind; [by apply agree_call_layer|].
  intros Y w1' w2' Hs'. by apply agree_call_output_activation.
Qed.

(** The forward pass over a stack of [hidden_layers + 2] layers is the
    layered pass over that stack. *)
Lemma forward_agrees_layered_pass self ls lout X w :
  0 <= hidden_layers self ->
  layers self = ls ++ [lout] ->
  length ls = S (Z.to_nat (hidden_layers self)) ->
  agree (forward self X w) (layered_pass self ls lout X w).
Proof.
  intros Hh Hls Hlen. destruct ls as [|l0 ls]; [discriminate|].
  simpl in Hlen. injection Hlen as Hlen.
  rewrite forward_unfold. unfold layered_pass. cbn [for_each]. rewrite bind_assoc.
  apply agree_bind.
  { apply agree_hidden_step; [apply same_but_log_refl | lia | by rewrite Hls]. }
  intros X1 w1 w2 Hs. apply agree_bind.
  { rewrite py_range_from_1, <- Hlen by done. apply agree_loop; [done|].
    intros j l Hj. rewrite Hls. simpl. rewrite lookup_app_l; [done|].
    by apply lookup_lt_Some in Hj. }
  intros X2 w1' w2' Hs'. apply agree_last_call; [|done].
  intros w0. apply call_layer_at; [lia|].
  rewrite Hls. replace (Z.to_nat (hidden_layers self + 1)) with (S (length ls)) by lia.
  simpl. rewrite lookup_app_r by lia. by rewrite Nat.sub_diag.
Qed.

(** On a stack of two layers whose loop does not run, the forward pass
    is the two-layer pass with the layer its last index resolves to. *)
Lemma two_layer_pass_unfold self l0 l X w :
  two_layer_pass self l0 l X w
  = bind (block self l0 X)
      (fun X1 => bind (Linear_forward l X1)
                   (Activation_forward (output_activation self) (training self))) w.
Proof.
  unfold two_layer_pass, block, bind.
  destruct (Linear_forward l0 X w) as [[Y|e] w1]; [|done].
  destruct (Activation_forward (activation self) (training self) Y w1)
    as [[A|e] w2]; [|done].
  by destruct (Dropout_forward (dropout self) (training self) A w2) as [[X1|e] w3].
Qed.

Lemma forward_agrees_two_layer_pass self l0 l X w :
  hidden_layers self <= 0 ->
  layers self !! 0%nat = Some l0 ->
  (forall X1 w0, call_layer self (hidden_layers self + 1) X1 w0
                 = Linear_forward l X1 (emit [ECallLayer (hidden_layers self + 1)] w0)) ->
  agree (forward self X w) (two_layer_pass self l0 l X w).
Proof.
  intros Hh Hl0 Hcall. rewrite two_layer_pass_unfold, forward_unfold.
  rewrite (py_range_empty 1 (hidden_layers self + 1)) by lia. cbn [for_each].
  apply agree_bind.
  - apply agree_hidden_step; [apply same_but_log_refl | lia | done].
  - intros X1 w1 w2 Hs. unfold bind at 1, ret at 1.
    apply agree_last_call; [|done]. intros w0. apply Hcall.
Qed.

(** ** Shapes, row by row *)

Lemma wp_ext {S A} (c c' : M S A) s Q E : c s = c' s -> wp c' s Q E -> wp c s Q E.
Proof. unfold wp. by intros ->. Qed.

Lemma Forall_width_map (f : list T -> list T) (c : Z) (rs : list (list T)) :
  (forall r, length (f r) = length r) ->
  Forall (fun r => Z.of_nat (length r) = c) rs ->
  Forall (fun r => Z.of_nat (length r) = c) (map f rs).
Proof.
  intros Hf. induction 1 as [|r rs Hr _ IH]; simpl; constructor; [|exact IH].
  by rewrite Hf.
Qed.

Lemma Forall_width_imap (f : nat -> list T -> list T) (c : Z) (rs : list (list T)) :
  (forall i r, length (f i r) = length r) ->
  Forall (fun r => Z.of_nat (length r) = c) rs ->
  Forall (fun r => Z.of_nat (length r) = c) (imap f rs).
Proof.
  intros Hf Hall. revert f Hf.
  induction Hall as [|r rs Hr _ IH]; intros f Hf; simpl; constructor.
  - by rewrite Hf.
  - apply IH. intros i r'. apply Hf.
Qed.

Lemma pure_activation_keeps_shape (f : list T -> list T) :
  (forall r, length (f r) = length r) ->
  keeps_shape (pure_activation (fun X => mkTensor (ncols X) (map f (rows X)))).
Proof.
  intros Hf t g X p HX. eexists _, _. split; [reflexivity|]. split.
  - unfold shape. simpl. by rewrite length_map.
  - unfold well_shaped. simpl. by apply Forall_width_map.
Qed.

Lemma ReLU_keeps_shape : keeps_shape ReLU.
Proof. apply pure_activation_keeps_shape. intros r. by rewrite length_map. Qed.

Lemma Softmax_last_keeps_shape : keeps_shape Softmax_last.
Proof.
  apply pure_activation_keeps_shape. intros r. unfold softmax_row.
  by rewrite !length_map.
Qed.

(** A layer whose parameters have the announced sizes returns rows of
    [out_features] entries. *)
Lemma wp_call_layer_shaped self i X B d w E :
  0 <= i ->
  map dims (layers self) !! Z.to_nat i = Some d ->
  Forall consistent (layers self) ->
  has_shape X B (fst d) ->
  wp (call_layer self i X) w (fun Y _ => has_shape Y B (snd d)) E.
Proof.
  intros Hi Hd Hcons [HX _].
  change (map dims (layers self)) with (dims <$> layers self) in Hd.
  rewrite list_lookup_fmap in Hd.
  destruct (layers self !! Z.to_nat i) as [l|] eqn:Hl; [|done].
  injection Hd as <-.
  destruct (proj1 (Forall_lookup _ _) Hcons _ _ Hl) as (Hrows & _ & Hbias).
  unfold wp. rewrite (call_layer_at self i X w l Hi Hl).
  unfold Linear_forward. simpl in HX |- *.
  rewrite (shape_ncols _ _ _ HX), Z.eqb_refl. unfold ret.
  unfold has_shape, shape, well_shaped in *. simpl.
  injection HX as HB _. split; [by rewrite length_map, HB|].
  apply Forall_forall. intros r Hr. apply list_elem_of_fmap in Hr as (x & -> & _).
  unfold affine. rewrite length_zip_with. lia.
Qed.

Lemma wp_call_dropout_shaped self X B n w E :
  has_shape X B n ->
  wp (call_dropout self X) w (fun Y _ => has_shape Y B n) E.
Proof.
  intros [HX Hws]. unfold call_dropout. apply wp_bind, wp_log.
  unfold Dropout_forward.
  destruct (Qeq_bool (p_drop (dropout self)) 0 || negb (training self));
    [by apply wp_ret|].
  destruct (Qeq_bool (p_drop (dropout self)) 1).
  - apply wp_ret. unfold has_shape, shape, well_shaped in *. simpl.
    rewrite length_map. split; [exact HX|].
    apply Forall_width_map; [|exact Hws]. intros r. by rewrite length_map.
  - unfold wp, has_shape, shape, well_shaped in *. simpl.
    rewrite length_imap. split; [exact HX|].
    apply Forall_width_imap; [|exact Hws]. intros i r. by rewrite length_imap.
Qed.

Lemma wp_Activation_forward_shaped (a : Activation) t X B n w E :
  keeps_shape a -> has_shape X B n ->
  wp (Activation_forward a t X) w (fun Y _ => has_shape Y B n) E.
Proof.
  intros Ha [HX Hws].
  destruct (Ha t (generator w) X (position w) Hws) as (Y & p' & Hrun & HY & HwsY).
  unfold wp. rewrite Activation_forward_run, Hrun. simpl.
  split; [by rewrite HY | exact HwsY].
Qed.

Lemma wp_hidden_step_shaped self i X B d w E :
  0 <= i ->
  map dims (layers self) !! Z.to_nat i = Some d ->
  Forall consistent (layers self) ->
  keeps_shape (activation self) ->
  has_shape X B (fst d) ->
  wp (hidden_step self i X) w (fun Y _ => has_shape Y B (snd d)) E.
Proof.
  intros Hi Hd Hcons Hact HX. unfold hidden_step.
  apply wp_bind, wp_bind.
  eapply wp_post; [by apply (wp_call_layer_shaped self i X B d)|].
  intros Y w1 HY. cbv beta in HY. unfold call_activation. apply wp_bind, wp_log.
  eapply wp_post; [by apply (wp_Activation_forward_shaped _ _ Y B (snd d))|].
  intros A w2 HA. cbv beta in HA. by apply wp_call_dropout_shaped.
Qed.

(** On a well-formed module whose layers have parameters of the
    announced sizes and whose activations keep shapes, the forward pass
    returns, and maps [B] rows of [input_dim] entries to [B] rows of
    [output_dim] entries. *)
Lemma wp_forward_shaped self X B w :
  well_formed self ->
  Forall consistent (layers self) ->
  keeps_shape (activation self) ->
  keeps_shape (output_activation self) ->
  has_shape X B (input_dim self) ->
  wp (forward self X) w
     (fun Y _ => has_shape Y B (output_dim self))
     (fun _ _ => False).
Proof.
  intros [Hh Hd] Hcons Hact Hout HX. set (hu := hidden_units self).
  apply (wp_ext _ _ _ _ _ (forward_unfold self X w)).
  apply wp_bind.
  eapply wp_post;
    [ apply (wp_hidden_step_shaped self 0 X B (input_dim self, hu));
        [lia | by rewrite Hd | done | done | done]
    | ].
  intros X1 w1 HX1. cbv beta in HX1. simpl in HX1.
  apply wp_bind.
  eapply wp_post;
    [ apply (wp_for_each _
        (fun rest X' _ =>
           Forall (fun i => 1 <= i <= hidden_layers self) rest /\ has_shape X' B hu)
        (fun _ _ => False))
    | ]; simpl.
  - split; [|done]. apply Forall_forall. intros i Hi.
    apply elem_of_py_range in Hi. lia.
  - intros i rest X' w' (Hrest & HX'). apply Forall_cons in Hrest as [Hi Hrest].
    eapply wp_post;
      [ apply (wp_hidden_step_shaped self i X' B (hu, hu));
          [ lia | rewrite Hd; apply stack_dims_hidden; lia | done | done | done ]
      | ].
    intros X2 w2 HX2. cbv beta in HX2. simpl in HX2. done.
  - intros X2 w2 (_ & HX2). apply wp_bind.
    eapply wp_post;
      [ apply (wp_call_layer_shaped self (hidden_layers self + 1) X2 B
                 (hu, output_dim self));
          [ lia
          | rewrite Hd; replace (Z.to_nat (hidden_layers self + 1))
              with (S (Z.to_nat (hidden_layers self))) by lia;
            apply stack_dims_last
          | done | done ]
      | ].
    intros Y w3 HY. cbv beta in HY. simpl in HY.
    unfold call_output_activation. apply wp_bind, wp_log.
    by apply wp_Activation_forward_shaped.
Qed.

(** * The claims *)

(** C1 (the code at the input the claim is about): the constructor does
    not reject a dimension of zero.  With [input_dim = 0], and likewise
    with [output_dim = 0], it returns an instance whose three layers have
    been allocated. *)
Theorem zero_dimension_is_constructed w :
  (exists self w',
     __init__ 0 3 None None None None None w = (Ok self, w')
     /\ input_dim self = 0
     /\ map dims (layers self) = [(0, 10); (10, 10); (10, 3)]
     /\ count is_alloc (trace w') = (count is_alloc (trace w) + 3)%nat)
  /\
  (exists self w',
     __init__ 3 0 None None None None None w = (Ok self, w')
     /\ output_dim self = 0
     /\ map dims (layers self) = [(3, 10); (10, 10); (10, 0)]
     /\ count is_alloc (trace w') = (count is_alloc (trace w) + 3)%nat).
Proof.
  assert (Hq : valid_probability (default 0%Q None)) by (split; discriminate).
  assert (Hfit : forall a b, 0 <= a <= 10 -> 0 <= b <= 10 -> fits a b)
    by (unfold fits, int64_bound; intros; nia).
  assert (H10 : default 10 None = 10) by reflexivity.
  split.
  - destruct (init_returns 0 3 None None None None None w Hq
                ltac:(rewrite H10; apply Hfit; lia) ltac:(rewrite H10; apply Hfit; lia)
                ltac:(rewrite H10; apply Hfit; lia))
      as (self & w' & Hrun & Hi & _ & _ & _ & _ & _ & Hd & _ & Htr).
    exists self, w'. split; [exact Hrun|]. split; [exact Hi|]. split; [exact Hd|].
    rewrite Htr, count_app. reflexivity.
  - destruct (init_returns 3 0 None None None None None w Hq
                ltac:(rewrite H10; apply Hfit; lia) ltac:(rewrite H10; apply Hfit; lia)
                ltac:(rewrite H10; apply Hfit; lia))
      as (self & w' & Hrun & _ & Ho & _ & _ & _ & _ & Hd & _ & Htr).
    exists self, w'. split; [exact Hrun|]. split; [exact Ho|]. split; [exact Hd|].
    rewrite Htr, count_app. reflexivity.
Qed.

(** C2: whatever its arguments and whether it returns or raises, a call
    of the constructor leaves [NeuralNet.train_step_single] bound to the
    backprop training step; no later operation of the module (another
    construction, a forward pass, a training step) rebinds it, so every
    later training step of every net runs [train_step_single]. *)
Theorem construction_patches_every_net autograd other_step i o hu hl dp a oa w ops :
  let w1 := snd (__init__ i o hu hl dp a oa w) in
  classes w1 = patched (classes w)
  /\ resolve_train_step_single w1 = Some backprop_train_step_single
  /\ resolve_train_step_single (run autograd other_step ops w1)
     = Some backprop_train_step_single
  /\ forall net batch,
       call_train_step_single autograd other_step batch
         (net, run autograd other_step ops w1)
       = train_step_single autograd batch (net, run autograd other_step ops w1).
Proof.
  intros w1.
  assert (Hr : resolve_train_step_single w1 = Some backprop_train_step_single)
    by apply resolve_init.
  split; [|split; [exact Hr|split]].
  - pose proof (init_trace i o hu hl dp a oa w) as Hw. unfold wp in Hw.
    subst w1. destruct (__init__ i o hu hl dp a oa w) as [[m|e] w']; simpl; tauto.
  - by apply resolve_run.
  - intros net batch. apply call_patched. by apply resolve_run.
Qed.

(** C3: on every batch [(Xi, yi)] the training step first puts the
    module in training mode and calls the forward pass on [Xi].  If that
    returns a prediction, the step computes the loss with the criterion
    on prediction and target, runs the backward pass on it, and returns
    the loss together with the prediction, the module staying in
    training mode; if the forward pass raises, so does the step.  On a
    batch whose width fits a well-formed module the forward pass does
    return, and the log shows the steps in this order. *)
Theorem train_step_single_contract autograd net Xi yi w :
  let m1 := Module_train true (module_ net) in
  let w1 := emit [ESetTraining true; EInfer] w in
  (forall yp w2,
     forward m1 Xi w1 = (Ok yp, w2) ->
     exists net',
       train_step_single autograd (Xi, yi) (net, w)
       = (Ok (mkStepResult (mkLoss (criterion_ net yp yi) (autograd m1 Xi yp yi)) yp),
          (net', emit [EGetLoss; EBackward] w2))
       /\ training (module_ net') = true
       /\ criterion_ net' = criterion_ net
       /\ layers (module_ net')
          = backward_layers (autograd m1 Xi yp yi) (layers (module_ net)))
  /\ (forall e w2,
        forward m1 Xi w1 = (Raised e, w2) ->
        train_step_single autograd (Xi, yi) (net, w)
        = (Raised e, (with_module (Module_train true) net, w2)))
  /\ (well_formed (module_ net) ->
      shape_preserving (activation (module_ net)) ->
      shape_preserving (output_activation (module_ net)) ->
      ncols Xi = input_dim (module_ net) ->
      exists yp w2,
        forward m1 Xi w1 = (Ok yp, w2)
        /\ shape yp = (fst (shape Xi), output_dim (module_ net))
        /\ trace (emit [EGetLoss; EBackward] w2)
           = trace w
             ++ [ESetTraining true; EInfer]
             ++ forward_sequence (Z.to_nat (hidden_layers (module_ net)))
             ++ [EGetLoss; EBackward]).
Proof.
  intros m1 w1. split; [|split].
  - intros yp w2 Hrun. eexists.
    rewrite train_step_single_run. cbv zeta. cbn [with_module module_ criterion_].
    fold m1 w1. rewrite Hrun. split; [reflexivity|]. by cbn.
  - intros e w2 Hrun.
    rewrite train_step_single_run. cbv zeta. cbn [with_module module_ criterion_].
    fold m1 w1. by rewrite Hrun.
  - intros Hwf Hact Hout HX.
    destruct (wp_returns _ _ _ (wp_forward m1 Xi w1 Hwf Hact Hout HX))
      as (yp & w2 & Hrun & Hshape).
    pose proof (wp_ok _ _ _ _ _ _ (emits_forward m1 Xi (proj1 Hwf) w1) Hrun) as Htr.
    exists yp, w2. split; [exact Hrun|]. split; [exact Hshape|].
    cbv beta in Htr. unfold emit at 1. cbn [trace]. rewrite Htr.
    subst w1 m1. unfold emit. cbn [trace Module_train hidden_layers].
    rewrite <- !app_assoc. reflexivity.
Qed.

(** C4: with [h >= 0] hidden layers, a forward pass that returns has made
    exactly the calls of [forward_sequence h], in that order: layer 0,
    activation, dropout; for each hidden layer the layer, activation,
    dropout; the last layer, output activation.  One that raises has
    made a prefix of them.  On a well-formed module and an input of the
    right width it returns.  What the calls are applied to is as
    prescribed too: on a stack of [h + 2] layers the outcome of the pass
    (the tensor returned or the exception raised) and the state of the
    generator it leaves are those of [layered_pass], which feeds the
    input through layer, activation and dropout for each of the first
    [h + 1] layers in turn and applies the output activation to the
    result of the last layer, with no dropout after it.  In the sequence
    the output activation occurs once, at the end, right after the last
    layer; every dropout comes before that layer. *)
Theorem forward_call_sequence self X w :
  0 <= hidden_layers self ->
  let h := Z.to_nat (hidden_layers self) in
  (forall Y w', forward self X w = (Ok Y, w') ->
                trace w' = trace w ++ forward_sequence h)
  /\ (forall e w', forward self X w = (Raised e, w') ->
                   exists pre, pre `prefix_of` forward_sequence h
                               /\ trace w' = trace w ++ pre)
  /\ (well_formed self ->
      shape_preserving (activation self) ->
      shape_preserving (output_activation self) ->
      ncols X = input_dim self ->
      exists Y w', forward self X w = (Ok Y, w'))
  /\ (forall ls lout,
        layers self = ls ++ [lout] ->
        length ls = S h ->
        agree (forward self X w) (layered_pass self ls lout X w))
  /\ (exists front,
        forward_sequence h
        = front ++ [ECallLayer (hidden_layers self + 1); ECallOutputActivation]
        /\ count is_output_activation front = 0%nat
        /\ count is_dropout front = (h + 1)%nat
        /\ count is_layer_call front = (h + 1)%nat)
  /\ count is_output_activation (forward_sequence h) = 1%nat
  /\ count is_dropout (forward_sequence h) = (h + 1)%nat
  /\ count is_layer_call (forward_sequence h) = (h + 2)%nat.
Proof.
  intros Hh h.
  pose proof (emits_forward self X Hh w) as Hem.
  split; [|split; [|split; [|split; [|split]]]].
  - intros Y w' Hrun. exact (wp_ok _ _ _ _ _ _ Hem Hrun).
  - intros e w' Hrun. exact (wp_raised _ _ _ _ _ _ Hem Hrun).
  - intros Hwf Hact Hout HX.
    destruct (wp_returns _ _ _ (wp_forward self X w Hwf Hact Hout HX))
      as (Y & w' & Hrun & _). eauto.
  - intros ls lout Hls Hlen. by apply forward_agrees_layered_pass.
  - eexists. unfold forward_sequence. rewrite app_assoc.
    replace (Z.of_nat h + 1) with (hidden_layers self + 1) by (subst h; lia).
    split; [reflexivity|].
    rewrite !count_app, (count_flat_map is_output_activation _ 0),
      (count_flat_map is_dropout _ 1), (count_flat_map is_layer_call _ 1), length_seq
      by done.
    unfold count. simpl. lia.
  - pose proof (count_forward_sequence h). tauto.
Qed.

(** C5 (amended): take a configuration with positive dimensions and
    width, [h >= 0] hidden layers and a dropout probability in [0, 1),
    whose activation and output activation return, on every input, a
    tensor of the shape of that input.  If the constructor returns an
    instance, its forward pass, in training or evaluation mode, maps
    every input of [B] rows of [input_dim] entries to an output of [B]
    rows of [output_dim] entries. *)
Theorem forward_shape i o hu hl dp a oa w0 self w1 :
  0 < i -> 0 < o -> 0 < default 10 hu -> 0 <= default 1 hl ->
  (0 <= default 0 dp)%Q -> (default 0 dp < 1)%Q ->
  keeps_shape (default ReLU a) ->
  keeps_shape (default Softmax_last oa) ->
  __init__ i o hu hl dp a oa w0 = (Ok self, w1) ->
  forall mode X B w,
    has_shape X B i ->
    exists Y w', forward (Module_train mode self) X w = (Ok Y, w')
                 /\ has_shape Y B o.
Proof.
  intros Hi Ho Hhu Hh Hq0 Hq1 Hact Hout Hrun mode X B w HX.
  pose proof (wp_ok _ _ _ _ _ _ (wp_init i o hu hl dp a oa w0) Hrun)
    as (Hin & Hon & Hhun & Hhl & _ & Ha & Hoa & _ & Hd & _).
  pose proof (wp_ok _ _ _ _ _ _ (wp_init_detail i o hu hl dp a oa w0) Hrun)
    as (_ & Hls & _).
  assert (Hwf : well_formed (Module_train mode self)).
  { apply well_formed_train. split; [by rewrite Hhl|]. by rewrite Hin, Hon, Hhun, Hhl. }
  assert (Hcons : Forall consistent (layers (Module_train mode self))).
  { eapply Forall_impl; [exact Hls|]. by intros l [_ Hc]. }
  destruct (wp_returns _ _ _
              (wp_forward_shaped (Module_train mode self) X B w Hwf Hcons
                 ltac:(cbn [Module_train activation]; by rewrite Ha)
                 ltac:(cbn [Module_train output_activation]; by rewrite Hoa)
                 ltac:(cbn [Module_train input_dim]; by rewrite Hin)))
    as (Y & w' & HY & Hshape).
  exists Y, w'. split; [exact HY|].
  cbn [Module_train output_dim] in Hshape. by rewrite Hon in Hshape.
Qed.

(** C6: a construction with [h >= 0] hidden layers that returns has
    allocated exactly [h + 2] linear layers: the input layer
    (input_dim to hidden_units), [h] hidden layers (hidden_units to
    hidden_units) and the output layer (hidden_units to output_dim), in
    this order.  Afterwards a forward pass allocates nothing, and a
    training step of any net allocates nothing and keeps the length of
    the stack, the dimensions of its layers and their weights and
    biases. *)
Theorem layer_stack autograd i o hu hl dp a oa w self w' :
  0 <= default 1 hl ->
  __init__ i o hu hl dp a oa w = (Ok self, w') ->
  let h := Z.to_nat (default 1 hl) in
  length (layers self) = (h + 2)%nat
  /\ map dims (layers self)
     = [(i, default 10 hu)] ++ replicate h (default 10 hu, default 10 hu)
       ++ [(default 10 hu, o)]
  /\ count is_alloc (trace w') = (count is_alloc (trace w) + (h + 2))%nat
  /\ (forall X w1,
        count is_alloc (trace (snd (forward self X w1))) = count is_alloc (trace w1))
  /\ (forall net batch w1,
        let out := train_step_single autograd batch (net, w1) in
        length (layers (module_ (fst (snd out)))) = length (layers (module_ net))
        /\ map dims (layers (module_ (fst (snd out)))) = map dims (layers (module_ net))
        /\ parameters (module_ (fst (snd out))) = parameters (module_ net)
        /\ count is_alloc (trace (snd (snd out))) = count is_alloc (trace w1)).
Proof.
  intros Hh Hrun h.
  pose proof (wp_ok _ _ _ _ _ _ (wp_init i o hu hl dp a oa w) Hrun)
    as (_ & _ & _ & _ & _ & _ & _ & _ & Hd & _).
  pose proof (wp_ok _ _ _ _ _ _ (init_trace i o hu hl dp a oa w) Hrun) as [_ Htr].
  split; [|split; [exact Hd|split; [|split]]].
  - apply (f_equal length) in Hd. by rewrite length_map, length_stack_dims in Hd.
  - rewrite Htr. unfold init_events. rewrite !count_app. unfold count at 2 3 4 6.
    simpl. fold h.
    assert (Hrep : forall n e, is_alloc e = true -> count is_alloc (replicate n e) = n).
    { intros n e He. induction n as [|n IH]; [done|].
      unfold count in *. simpl. rewrite He. simpl. by rewrite IH. }
    rewrite Hrep by done. lia.
  - intros X w1. apply forward_allocates_nothing.
  - intros net [Xi yi] w1. rewrite train_step_single_run. cbv zeta.
    pose proof (forward_allocates_nothing (module_ (with_module (Module_train true) net))
                  Xi (emit [ESetTraining true; EInfer] w1)) as Hal.
    assert (Hem : forall evs w2,
               count is_alloc evs = 0%nat ->
               count is_alloc (trace (emit evs w2)) = count is_alloc (trace w2)).
    { intros evs w2 Hz. unfold emit. cbn [trace]. rewrite count_app. lia. }
    rewrite Hem in Hal by done.
    destruct (forward _ Xi _) as [[yp|e] w2]; cbn [fst snd] in *.
    + cbn [with_module module_ Module_backward Module_train layers].
      split; [|split; [|split]].
      * pose proof (f_equal length (dims_backward
          (autograd (Module_train true (module_ net)) Xi yp yi) (layers (module_ net))))
          as Hlen.
        by rewrite !length_map in Hlen.
      * apply dims_backward.
      * apply (parameters_backward _ (Module_train true (module_ net))).
      * rewrite Hem by done. exact Hal.
    + cbn [with_module module_ Module_train layers]. repeat split. exact Hal.
Qed.

(** C7: a construction with [hidden_layers = 0] that returns has a stack
    of two layers, the input layer (input_dim to hidden_units) and the
    output layer (hidden_units to output_dim).  A forward pass calls
    layer 0 and layer 1 and no other layer, and computes what
    [two_layer_pass] computes; on an input of width input_dim, with
    shape-preserving activations, it returns. *)
Theorem no_hidden_layer i o hu dp a oa w self w' :
  __init__ i o hu (Some 0) dp a oa w = (Ok self, w') ->
  exists l0 l1,
    layers self = [l0; l1]
    /\ dims l0 = (i, default 10 hu) /\ dims l1 = (default 10 hu, o)
    /\ forall X w1,
         (forall Y w2, forward self X w1 = (Ok Y, w2) ->
                       trace w2 = trace w1 ++ [ECallLayer 0; ECallActivation; ECallDropout;
                                               ECallLayer 1; ECallOutputActivation])
         /\ fst (forward self X w1) = fst (two_layer_pass self l0 l1 X w1)
         /\ (ncols X = i ->
             shape_preserving (activation self) ->
             shape_preserving (output_activation self) ->
             exists Y w2, forward self X w1 = (Ok Y, w2)
                          /\ shape Y = (fst (shape X), o)).
Proof.
  intros Hrun.
  pose proof (wp_ok _ _ _ _ _ _ (wp_init i o hu (Some 0) dp a oa w) Hrun)
    as (Hin & Hon & Hhun & Hhl & _ & _ & _ & _ & Hd & _).
  simpl in Hhl, Hd.
  destruct (layers self) as [|l0 [|l1 [|l2 ls]]] eqn:Hls; try discriminate.
  injection Hd as Hi0 Ho0 Hi1 Ho1.
  assert (Hd0 : dims l0 = (i, default 10 hu)) by (unfold dims; by rewrite Hi0, Ho0).
  assert (Hd1 : dims l1 = (default 10 hu, o)) by (unfold dims; by rewrite Hi1, Ho1).
  exists l0, l1. split; [done|]. split; [done|]. split; [done|].
  intros X w1. split; [|split].
  - intros Y w2 HY.
    pose proof (wp_ok _ _ _ _ _ _ (emits_forward self X ltac:(lia) w1) HY) as Htr.
    by rewrite Hhl in Htr.
  - apply (forward_agrees_two_layer_pass self l0 l1 X w1); [lia | by rewrite Hls |].
    intros X2 w0. apply call_layer_at; [lia|]. by rewrite Hhl, Hls.
  - intros HX Hact Hout.
    assert (Hwf : well_formed self).
    { split; [lia|]. rewrite Hls, Hin, Hon, Hhun, Hhl. simpl. by rewrite Hd0, Hd1. }
    destruct (wp_returns _ _ _ (wp_forward self X w1 Hwf Hact Hout ltac:(by rewrite Hin)))
      as (Y & w2 & HY & Hshape).
    exists Y, w2. split; [exact HY|]. by rewrite Hshape, Hon.
Qed.

(** C8: a construction from [input_dim] and [output_dim] alone that
    returns has [hidden_units = 10], [hidden_layers = 1], dropout
    probability 0, ReLU as activation and Softmax over the last dimension
    as output activation; its stack has three layers, and its dropout
    returns its input unchanged in either mode, without drawing from the
    generator. *)
Theorem default_configuration i o w self w' :
  __init__ i o None None None None None w = (Ok self, w') ->
  hidden_units self = 10
  /\ hidden_layers self = 1
  /\ p_drop (dropout self) = 0%Q
  /\ activation self = ReLU
  /\ output_activation self = Softmax_last
  /\ length (layers self) = 3%nat
  /\ map dims (layers self) = [(i, 10); (10, 10); (10, o)]
  /\ forall mode X w1, Dropout_forward (dropout self) mode X w1 = (Ok X, w1).
Proof.
  intros Hrun.
  pose proof (wp_ok _ _ _ _ _ _ (wp_init i o None None None None None w) Hrun)
    as (_ & _ & Hhun & Hhl & Hp & Ha & Hoa & _ & Hd & _).
  clear Hrun. simpl in Hhun, Hhl, Hp, Ha, Hoa, Hd.
  repeat match goal with |- _ /\ _ => split end; try assumption.
  - apply (f_equal length) in Hd. by rewrite length_map in Hd.
  - intros mode X w1. unfold Dropout_forward. by rewrite Hp.
Qed.

(** C9: in every run of the constructor, returning or raising, the log
    starts with the base-class initialisation and the installation of
    the training step; every attribute store and every allocation comes
    after them, and at the end [NeuralNet.train_step_single] is bound to
    the backprop step.  In particular a dropout probability outside
    [0, 1] makes the constructor raise [ValueError] with the binding in
    place and no layer allocated. *)
Theorem patch_precedes_configuration i o hu hl dp a oa w :
  let out := __init__ i o hu hl dp a oa w in
  (exists rest,
     trace (snd out)
     = trace w ++ [EModuleInit; ESetattr "NeuralNet" "train_step_single"] ++ rest
     /\ forallb is_store_or_alloc rest = true)
  /\ classes (snd out) = patched (classes w)
  /\ resolve_train_step_single (snd out) = Some backprop_train_step_single
  /\ (~ valid_probability (default 0%Q dp) ->
      fst out = Raised ValueError
      /\ count is_alloc (trace (snd out)) = count is_alloc (trace w)
      /\ resolve_train_step_single (snd out) = Some backprop_train_step_single).
Proof.
  intros out.
  assert (Hr : resolve_train_step_single (snd out) = Some backprop_train_step_single)
    by apply resolve_init.
  assert (Hall : forallb is_store_or_alloc
                   (drop 2 (init_events i o (default 10 hu) (default 1 hl))) = true).
  { unfold init_events. simpl. apply forallb_forall. intros e He.
    apply in_app_or in He as [He|He].
    - apply list_elem_of_In, elem_of_replicate in He as [-> _]. done.
    - destruct He as [<-|[]]. done. }
  pose proof (init_trace i o hu hl dp a oa w) as Hw. unfold wp in Hw.
  split; [|split; [|split; [exact Hr|]]].
  - subst out. destruct (__init__ i o hu hl dp a oa w) as [[m|e] w']; simpl.
    + destruct Hw as [_ Htr]. eexists. split; [exact Htr|exact Hall].
    + destruct Hw as [_ (pre & [k Hpre] & Htr)]. exists pre. split; [exact Htr|].
      rewrite Hpre, forallb_app in Hall. by apply andb_true_iff in Hall as [? _].
  - subst out. destruct (__init__ i o hu hl dp a oa w) as [[m|e] w']; simpl; tauto.
  - intros Hq. subst out. rewrite (init_invalid_dropout _ _ _ _ _ _ _ _ Hq) in *.
    split; [done|]. split; [|exact Hr]. cbn [snd trace]. by rewrite count_app.
Qed.

(** C10: a training step, whether it returns or raises, leaves the weight
    and the bias of every layer as they were.  When it returns, the
    layers differ from before only by the gradients added by the
    backward pass, and a gradient that was there is still there; when it
    raises, the layers are untouched. *)
Theorem train_step_keeps_parameters autograd net batch w :
  let out := train_step_single autograd batch (net, w) in
  let net' := fst (snd out) in
  parameters (module_ net') = parameters (module_ net)
  /\ match fst out with
     | Ok res =>
         layers (module_ net')
         = backward_layers (loss_grads (loss res)) (layers (module_ net))
     | Raised _ => layers (module_ net') = layers (module_ net)
     end
  /\ forall k l,
       layers (module_ net) !! k = Some l ->
       exists l',
         layers (module_ net') !! k = Some l'
         /\ weight l' = weight l /\ bias l' = bias l
         /\ (is_Some (weight_grad l) -> is_Some (weight_grad l'))
         /\ (is_Some (bias_grad l) -> is_Some (bias_grad l')).
Proof.
  destruct batch as [Xi yi]. intros out net'. subst net' out.
  rewrite train_step_single_run. cbv zeta.
  destruct (forward _ Xi _) as [[yp|e] w2]; cbn [fst snd].
  - cbn [with_module module_ loss loss_grads].
    split; [apply (parameters_backward _ (Module_train true (module_ net)))|].
    split; [reflexivity|].
    intros k l Hl. cbn [Module_backward Module_train layers].
    rewrite (backward_layers_lookup _ _ _ _ Hl). eexists. split; [reflexivity|].
    destruct (autograd _ _ _ _ !! k) as [g|]; [|done]. unfold accumulate_grad. simpl.
    split; [reflexivity|]. split; [reflexivity|].
    split; intros [g0 Hg]; rewrite Hg; simpl; by eexists.
  - cbn [with_module module_ Module_train layers]. split; [done|]. split; [done|].
    intros k l Hl. exists l. done.
Qed.

(** * Beyond the claims *)

(** The ways a run of the constructor can end. *)
Lemma init_cases i o hu hl dp a oa w :
  let out := __init__ i o hu hl dp a oa w in
  let u := default 10 hu in
  let n := Z.to_nat (default 1%Z hl) in
  let q := default 0%Q dp in
  (exists self, fst out = Ok self /\ valid_probability q /\ fits i u /\ fits u o
                /\ num_alloc (snd out) = (num_alloc w + n + 2)%nat)
  \/ (fst out = Raised ValueError /\ ~ valid_probability q
      /\ num_alloc (snd out) = num_alloc w)
  \/ (valid_probability q /\ ~ fits i u /\ num_alloc (snd out) = num_alloc w
      /\ ((fst out = Raised TypeError /\ is_int64 i && is_int64 u = false)
          \/ (fst out = Raised RuntimeError /\ is_int64 i && is_int64 u = true)))
  \/ (valid_probability q /\ fits i u /\ fst out = Raised RuntimeError
      /\ (num_alloc (snd out) <= num_alloc w + n)%nat)
  \/ (valid_probability q /\ fits i u /\ ~ fits u o
      /\ num_alloc (snd out) = (num_alloc w + 1 + n)%nat
      /\ ((fst out = Raised TypeError /\ is_int64 o = false)
          \/ (fst out = Raised RuntimeError /\ is_int64 o = true))).
Proof.
  intros out u n q. subst out u n q.
  pose proof (wp_init i o hu hl dp a oa w) as Hv. unfold wp in Hv.
  pose proof (wp_init_detail i o hu hl dp a oa w) as Hw. unfold wp in Hw.
  cbv zeta in Hw.
  destruct (__init__ i o hu hl dp a oa w) as [[self|e] w']; cbn [fst snd].
  - left. exists self.
    destruct Hv as (_ & _ & _ & _ & _ & _ & _ & _ & _ & Hq & _ & _ & _ & Hf0 & Hf1).
    destruct Hw as (_ & _ & Hn). done.
  - right.
    destruct Hw as [(-> & Hq & Hn)
                   | [(Hq & Hf & Hn & He)
                     | [(Hq & Hf & _ & -> & Hn) | (Hq & Hf & Hf' & Hn & He)]]].
    + left. done.
    + right. left. split; [done|]. split; [done|]. split; [done|].
      destruct He as [[-> H64] | [-> H64]]; [left | right]; done.
    + right. right. left. done.
    + right. right. right. split; [done|]. split; [done|]. split; [done|].
      split; [done|]. destruct He as [[-> H64] | [-> H64]]; [left | right]; done.
Qed.

(** X1: how the constructor ends.  It raises [ValueError] exactly when
    the dropout probability lies outside [0, 1], whatever the
    dimensions.  With a valid probability it raises [TypeError] when
    [input_dim] or [hidden_units] is outside the 64-bit range, and
    [RuntimeError] when both are in range and one of them is negative or
    the input layer would take 2^63 bytes or more.  A [TypeError] means that one of the three dimensions is outside the
    range; and when an instance is returned, the probability is valid
    and the three dimensions lie between 0 and 2^63. *)
Theorem constructor_outcome i o hu hl dp a oa w :
  let out := fst (__init__ i o hu hl dp a oa w) in
  let u := default 10 hu in
  (out = Raised ValueError <-> ~ valid_probability (default 0%Q dp))
  /\ (valid_probability (default 0%Q dp) ->
      is_int64 i && is_int64 u = false ->
      out = Raised TypeError)
  /\ (valid_probability (default 0%Q dp) ->
      is_int64 i && is_int64 u = true ->
      i < 0 \/ u < 0 \/ int64_bound <= 4 * (u * i) \/ int64_bound <= 4 * u ->
      out = Raised RuntimeError)
  /\ (out = Raised TypeError -> is_int64 i && is_int64 u && is_int64 o = false)
  /\ (forall self, out = Ok self ->
        valid_probability (default 0%Q dp)
        /\ 0 <= i < int64_bound /\ 0 <= u < int64_bound /\ 0 <= o < int64_bound).
Proof.
  intros out u. subst out.
  pose proof (init_cases i o hu hl dp a oa w) as Hc. cbv zeta in Hc. fold u in Hc.
  assert (Hfit : forall a b, fits a b ->
            is_int64 a = true /\ is_int64 b = true
            /\ 0 <= a < int64_bound /\ 0 <= b < int64_bound).
  { intros x y Hf. destruct (fits_int64 _ _ Hf). unfold fits in Hf. tauto. }
  destruct Hc as [(self & Hout & Hq & Hf0 & Hf1 & _)
                 | [(Hout & Hq & _)
                   | [(Hq & Hf & _ & [[Hout H64] | [Hout H64]])
                     | [(Hq & Hf & Hout & _)
                       | (Hq & Hf & Hf' & _ & [[Hout H64] | [Hout H64]])]]]];
    rewrite Hout.
  - destruct (Hfit _ _ Hf0) as (Hi64 & Hu64 & Hi & Hu).
    destruct (Hfit _ _ Hf1) as (_ & Ho64 & _ & Ho).
    split; [split; [discriminate | tauto]|].
    split; [intros _ Hb; rewrite Hi64, Hu64 in Hb; discriminate|].
    split; [intros _ _ Hneg; unfold fits in *; lia|].
    split; [discriminate|].
    intros self' _. tauto.
  - split; [tauto|]. split; [tauto|]. split; [tauto|]. split; discriminate.
  - split; [split; [discriminate | tauto]|].
    split; [done|]. split; [congruence|]. split; [intros _; by rewrite H64|].
    discriminate.
  - split; [split; [discriminate | tauto]|].
    split; [congruence|]. split; [done|]. split; discriminate.
  - destruct (Hfit _ _ Hf) as (Hi64 & Hu64 & Hi & Hu).
    split; [split; [discriminate | tauto]|].
    split; [intros _ Hb; rewrite Hi64, Hu64 in Hb; discriminate|].
    split; [done|]. split; discriminate.
  - destruct (Hfit _ _ Hf) as (Hi64 & Hu64 & Hi & Hu).
    split; [split; [discriminate | tauto]|].
    split; [intros _ Hb; rewrite Hi64, Hu64 in Hb; discriminate|].
    split; [intros _ _ Hneg; unfold fits in *; lia|].
    split; [intros _; rewrite H64; apply andb_false_r|].
    discriminate.
  - destruct (Hfit _ _ Hf) as (Hi64 & Hu64 & Hi & Hu).
    split; [split; [discriminate | tauto]|].
    split; [intros _ Hb; rewrite Hi64, Hu64 in Hb; discriminate|].
    split; [done|]. split; discriminate.
Qed.

(** X2: what has been allocated when the constructor stops.  A run that
    returns has allocated the input layer, max(hidden_layers, 0) hidden
    layers and the output layer; a run that raises has allocated at most
    the first two groups.  An invalid probability, or an [input_dim] or
    [hidden_units] that is negative or outside the 64-bit range, stops
    it with nothing allocated.  A negative [output_dim] never lets it
    return, but is found out at the output layer if not before: the run
    raises with up to 1 + max(hidden_layers, 0) layers allocated. *)
Theorem allocations_before_failure i o hu hl dp a oa w :
  let out := __init__ i o hu hl dp a oa w in
  let u := default 10 hu in
  let n := Z.to_nat (default 1%Z hl) in
  (forall self, fst out = Ok self ->
                num_alloc (snd out) = (num_alloc w + n + 2)%nat)
  /\ (forall e, fst out = Raised e ->
                (num_alloc (snd out) <= num_alloc w + 1 + n)%nat)
  /\ (~ valid_probability (default 0%Q dp)
      \/ is_int64 i && is_int64 u = false \/ i < 0 \/ u < 0 ->
      exists e, fst out = Raised e /\ num_alloc (snd out) = num_alloc w)
  /\ (o < 0 ->
      exists e, fst out = Raised e
                /\ (num_alloc (snd out) <= num_alloc w + 1 + n)%nat).
Proof.
  intros out u n. subst out.
  pose proof (init_cases i o hu hl dp a oa w) as Hc. cbv zeta in Hc.
  fold u in Hc. fold n in Hc.
  assert (Hfit : forall a b, fits a b ->
            is_int64 a = true /\ is_int64 b = true /\ 0 <= a /\ 0 <= b).
  { intros x y Hf. destruct (fits_int64 _ _ Hf). unfold fits in Hf. tauto. }
  assert (Hfirst : forall P : Prop,
            fits i u ->
            ~ valid_probability (default 0%Q dp)
            \/ is_int64 i && is_int64 u = false \/ i < 0 \/ u < 0 ->
            valid_probability (default 0%Q dp) -> P).
  { intros P Hf Hbad Hq. destruct (Hfit _ _ Hf) as (Hi64 & Hu64 & Hi & Hu).
    rewrite Hi64, Hu64 in Hbad. simpl in Hbad.
    destruct Hbad as [Hbad | [Hbad | Hbad]]; [tauto | discriminate | lia]. }
  destruct Hc as [(self & Hout & Hq & Hf0 & Hf1 & Hn)
                 | [(Hout & Hq & Hn)
                   | [(Hq & Hf & Hn & [[Hout Hb] | [Hout Hb]])
                     | [(Hq & Hf & Hout & Hn)
                       | (Hq & Hf & Hf' & Hn & [[Hout Hb] | [Hout Hb]])]]]];
    rewrite Hout.
  - split; [intros _ _; exact Hn|]. split; [discriminate|].
    split; [intros Hbad; by apply (Hfirst _ Hf0 Hbad)|].
    intros Ho. destruct (Hfit _ _ Hf1) as (_ & _ & _ & Ho'). lia.
  - split; [discriminate|]. split; [intros; lia|].
    split; intros _; eexists; (split; [reflexivity | lia]).
  - split; [discriminate|]. split; [intros; lia|].
    split; intros _; eexists; (split; [reflexivity | lia]).
  - split; [discriminate|]. split; [intros; lia|].
    split; intros _; eexists; (split; [reflexivity | lia]).
  - split; [discriminate|]. split; [intros; lia|].
    split; [intros Hbad; by apply (Hfirst _ Hf Hbad) |].
    intros _. eexists. split; [reflexivity | lia].
  - split; [discriminate|]. split; [intros; lia|].
    split; [intros Hbad; by apply (Hfirst _ Hf Hbad) |].
    intros _. eexists. split; [reflexivity | lia].
  - split; [discriminate|]. split; [intros; lia|].
    split; [intros Hbad; by apply (Hfirst _ Hf Hbad) |].
    intros _. eexists. split; [reflexivity | lia].
Qed.

(** X3: a negative number of hidden layers is accepted: the loop over
    [range(hidden_layers)] does not run, the stack is the input layer
    followed by the output layer, and the negative number is what the
    instance keeps in [hidden_layers]. *)
Theorem negative_hidden_layers_build_two i o hu h dp a oa w self w' :
  h < 0 ->
  __init__ i o hu (Some h) dp a oa w = (Ok self, w') ->
  hidden_layers self = h
  /\ num_alloc w' = (num_alloc w + 2)%nat
  /\ exists l0 l1,
       layers self = [l0; l1]
       /\ dims l0 = (i, default 10 hu) /\ dims l1 = (default 10 hu, o).
Proof.
  intros Hh Hrun.
  pose proof (wp_ok _ _ _ _ _ _ (wp_init i o hu (Some h) dp a oa w) Hrun)
    as (_ & _ & _ & Hhl & _ & _ & _ & _ & Hd & _).
  pose proof (wp_ok _ _ _ _ _ _ (wp_init_detail i o hu (Some h) dp a oa w) Hrun)
    as (_ & _ & Hn).
  simpl in Hhl, Hd, Hn. replace (Z.to_nat h) with 0%nat in Hd, Hn by lia.
  split; [exact Hhl|]. split; [lia|].
  destruct (layers self) as [|l0 [|l1 [|l2 ls]]]; try discriminate.
  injection Hd as Hi0 Ho0 Hi1 Ho1.
  exists l0, l1. unfold dims. by rewrite Hi0, Ho0, Hi1, Ho1.
Qed.

(** X4: the device is chosen once, from whether CUDA is there when the
    constructor is called; the instance records it, every layer of the
    stack is put on it, and every layer starts without gradients. *)
Theorem layers_share_device i o hu hl dp a oa w self w' :
  __init__ i o hu hl dp a oa w = (Ok self, w') ->
  device self = (if cuda_is_available w then cuda else cpu)
  /\ Forall (fun l => linear_device l = device self
                      /\ weight_grad l = None /\ bias_grad l = None) (layers self).
Proof.
  intros Hrun.
  pose proof (wp_ok _ _ _ _ _ _ (wp_init_detail i o hu hl dp a oa w) Hrun)
    as (Hdev & Hls & _).
  split; [exact Hdev|]. rewrite Hdev.
  eapply Forall_impl; [exact Hls|]. by intros l [Hf _].
Qed.

(** X5: an input whose width is not [input_dim] is refused by the first
    layer: the forward pass raises [RuntimeError] having called layer 0
    and nothing else: no activation, no dropout, no draw from the
    generator.  This holds for every instance the constructor returns. *)
Theorem forward_rejects_wrong_width i o hu hl dp a oa w0 self w1 X w :
  __init__ i o hu hl dp a oa w0 = (Ok self, w1) ->
  ncols X <> i ->
  forward self X w = (Raised RuntimeError, emit [ECallLayer 0] w).
Proof.
  intros Hrun HX.
  destruct (init_first_layer _ _ _ _ _ _ _ _ _ _ Hrun) as (l0 & ls & Hls & Hd).
  injection Hd as Hi0 _.
  rewrite forward_unfold. unfold hidden_step, bind at 1 2 3.
  rewrite (call_layer_at self 0 X w l0) by (try lia; by rewrite Hls).
  unfold Linear_forward. rewrite Hi0.
  destruct (ncols X =? i) eqn:Heq; [lia | done].
Qed.

(** X6: on a stack of [hidden_layers + 2] layers the forward pass, which
    addresses the layers by index, uses every layer once and in the order
    of the stack: its outcome, and where it leaves the generator, are
    those of a block (layer, activation, dropout) for each layer but the
    last in turn, followed by the last layer and the output activation. *)
Theorem forward_is_layered_pass self ls lout X w :
  0 <= hidden_layers self ->
  layers self = ls ++ [lout] ->
  length ls = S (Z.to_nat (hidden_layers self)) ->
  agree (forward self X w) (layered_pass self ls lout X w).
Proof. intros Hh Hls Hlen. by apply forward_agrees_layered_pass. Qed.

(** X7: what the forward pass does on a two-layer stack whose
    [hidden_layers] is negative (an instance built with a negative
    number is such).  The loop does not run and the last call is
    [layers[hidden_layers + 1]]: at -2 the index -1 wraps to the output
    layer and the pass is the one of [hidden_layers = 0]; at -1 and -3
    it is the input layer again; from -4 down the index is out of range
    and the pass raises [IndexError] once the first block has run. *)
Theorem forward_negative_hidden_layers self l0 l1 X w :
  layers self = [l0; l1] ->
  hidden_layers self < 0 ->
  let h := hidden_layers self in
  (h = -2 -> fst (forward self X w) = fst (two_layer_pass self l0 l1 X w))
  /\ (h = -1 \/ h = -3 -> fst (forward self X w) = fst (two_layer_pass self l0 l0 X w))
  /\ (h <= -4 ->
      fst (forward self X w)
      = match fst (block self l0 X w) with
        | Ok _ => Raised IndexError
        | Raised e => Raised e
        end).
Proof.
  intros Hls Hneg h.
  assert (Hlen : Z.of_nat (length (layers self)) = 2) by (by rewrite Hls).
  assert (Hwrap : forall l,
             (forall X1 w0, call_layer self (h + 1) X1 w0
                            = Linear_forward l X1 (emit [ECallLayer (h + 1)] w0)) ->
             fst (forward self X w) = fst (two_layer_pass self l0 l X w)).
  { intros l Hcall.
    apply (forward_agrees_two_layer_pass self l0 l X w); [lia | by rewrite Hls | done]. }
  split; [|split].
  - intros Hh. apply Hwrap. intros X1 w0. apply call_layer_wrapped; [lia | lia |].
    rewrite Hlen, Hls, Hh. done.
  - intros Hh. apply Hwrap. intros X1 w0. destruct Hh as [Hh|Hh].
    + apply call_layer_at; [lia|]. rewrite Hls, Hh. done.
    + apply call_layer_wrapped; [lia | lia |]. rewrite Hlen, Hls, Hh. done.
  - intros Hh. rewrite forward_unfold. fold h.
    rewrite (py_range_empty 1 (h + 1)) by lia. cbn [for_each].
    pose proof (agree_hidden_step self 0 l0 X w w (same_but_log_refl w) ltac:(lia)
                  ltac:(by rewrite Hls)) as [Hr _].
    unfold bind at 1. rewrite <- Hr.
    destruct (hidden_step self 0 X w) as [[X1|e] w1]; simpl; [|done].
    unfold bind, ret. by rewrite call_layer_out_of_range by lia.
Qed.

(** ** Evaluation mode *)

Lemma emit_nil w : emit [] w = w.
Proof. destruct w. unfold emit. simpl. by rewrite app_nil_r. Qed.

Lemma logs_only_ret {A} (a : A) : logs_only (ret a).
Proof. exists (Ok a), []. intros w. by rewrite emit_nil. Qed.

Lemma logs_only_raise {A} e : logs_only (@raise World A e).
Proof. exists (Raised e), []. intros w. by rewrite emit_nil. Qed.

Lemma logs_only_log e : logs_only (log e).
Proof. by exists (Ok tt), [e]. Qed.

Lemma logs_only_bind {A B} (c : M World A) (k : A -> M World B) :
  logs_only c -> (forall a, logs_only (k a)) -> logs_only (bind c k).
Proof.
  intros (r & e1 & Hc) Hk. destruct r as [a|e].
  - destruct (Hk a) as (r2 & e2 & Hka). exists r2, (e1 ++ e2). intros w.
    unfold bind. by rewrite Hc, Hka, emit_emit.
  - exists (Raised e), e1. intros w. unfold bind. by rewrite Hc.
Qed.

Lemma logs_only_for_each {A B} (body : A -> B -> M World B) :
  (forall x acc, logs_only (body x acc)) ->
  forall xs acc, logs_only (for_each xs body acc).
Proof.
  intros Hbody. induction xs as [|x xs IH]; intros acc; simpl.
  - apply logs_only_ret.
  - apply logs_only_bind; auto.
Qed.

Lemma logs_only_if {A} (b : bool) (c1 c2 : M World A) :
  logs_only c1 -> logs_only c2 -> logs_only (if b then c1 else c2).
Proof. by destruct b. Qed.

Lemma logs_only_call_layer self i X : logs_only (call_layer self i X).
Proof.
  unfold call_layer. apply logs_only_bind.
  - unfold getitem. apply logs_only_if; [|apply logs_only_raise].
    destruct (layers self !! _); [apply logs_only_ret | apply logs_only_raise].
  - intros l. apply logs_only_bind; [apply logs_only_log|]. intros _.
    unfold Linear_forward. apply logs_only_if; [apply logs_only_ret | apply logs_only_raise].
Qed.

Lemma logs_only_call_dropout self X :
  dropout_is_identity self -> logs_only (call_dropout self X).
Proof.
  intros Hid. unfold call_dropout. apply logs_only_bind; [apply logs_only_log|]. intros _.
  unfold Dropout_forward. unfold dropout_is_identity in Hid. rewrite Hid.
  apply logs_only_ret.
Qed.

Lemma logs_only_Activation_forward (a : Activation) t X :
  generator_free a t -> logs_only (Activation_forward a t X).
Proof.
  intros Hg. destruct (Hg X) as (r & Hr). exists r, []. intros w.
  rewrite Activation_forward_run, Hr, emit_nil. simpl. by destruct w.
Qed.

Lemma pure_activation_generator_free (f : Tensor (T:=T) -> Tensor (T:=T)) t :
  generator_free (pure_activation f) t.
Proof. intros X. by exists (Ok (f X)). Qed.

Lemma logs_only_hidden_step self i X :
  dropout_is_identity self ->
  generator_free (activation self) (training self) ->
  logs_only (hidden_step self i X).
Proof.
  intros Hid Hact. unfold hidden_step. apply logs_only_bind.
  - apply logs_only_bind; [apply logs_only_call_layer|]. intros Y.
    unfold call_activation. apply logs_only_bind; [apply logs_only_log|]. intros _.
    by apply logs_only_Activation_forward.
  - intros X1. by apply logs_only_call_dropout.
Qed.

(** X8: when dropout passes its input through (evaluation mode, or
    [p = 0] in any mode) and neither activation uses the generator in
    the mode the module is in (an activation that is a function of its
    input, like ReLU or Softmax, never does; [nn.RReLU] does in training
    mode), the forward pass depends on the module and the input alone:
    from every state it has the same outcome and logs the same calls,
    and it changes nothing else: no sample is drawn from the
    generator. *)
Theorem forward_without_dropout_is_pure self X :
  dropout_is_identity self ->
  generator_free (activation self) (training self) ->
  generator_free (output_activation self) (training self) ->
  exists r evs, forall w, forward self X w = (r, emit evs w).
Proof.
  intros Hid Hact Hout.
  assert (Hlo : logs_only
                  (bind (hidden_step self 0 X)
                     (fun X1 =>
                        bind (for_each (py_range 1 (hidden_layers self + 1))
                                (hidden_step self) X1)
                          (fun X2 =>
                             bind (call_layer self (hidden_layers self + 1) X2)
                                  (call_output_activation self))))).
  { apply logs_only_bind; [by apply logs_only_hidden_step|]. intros X1.
    apply logs_only_bind.
    { apply logs_only_for_each. intros i X2. by apply logs_only_hidden_step. }
    intros X2. apply logs_only_bind; [apply logs_only_call_layer|]. intros Y.
    unfold call_output_activation. apply logs_only_bind; [apply logs_only_log|].
    intros _. by apply logs_only_Activation_forward. }
  destruct Hlo as (r & evs & Hrun). exists r, evs. intros w.
  rewrite forward_unfold. apply Hrun.
Qed.

(** ** Steps in a row *)

Lemma train_step_returns autograd net batch w r net' w' :
  train_step_single autograd batch (net, w) = (Ok r, (net', w')) ->
  layers (module_ net') = backward_layers (loss_grads (loss r)) (layers (module_ net))
  /\ training (module_ net') = true
  /\ criterion_ net' = criterion_ net.
Proof.
  destruct batch as [Xi yi]. rewrite train_step_single_run. cbv zeta.
  destruct (forward _ Xi _) as [[yp|e] w2]; [|discriminate].
  intros [= <- <- _]. by cbn.
Qed.

(** X9: the training step never clears a gradient, so steps add up.
    After two steps that return, layer [k] has the weight and bias it had
    before the first, and its gradients are what was there before, plus
    the gradient of the first loss, plus the gradient of the second. *)
Theorem two_steps_accumulate autograd net b1 b2 w r1 net1 w1 r2 net2 w2 k l
    (g1 g2 : list (list T) * list T) :
  train_step_single autograd b1 (net, w) = (Ok r1, (net1, w1)) ->
  train_step_single autograd b2 (net1, w1) = (Ok r2, (net2, w2)) ->
  layers (module_ net) !! k = Some l ->
  loss_grads (loss r1) !! k = Some g1 ->
  loss_grads (loss r2) !! k = Some g2 ->
  exists l2,
    layers (module_ net2) !! k = Some l2
    /\ weight l2 = weight l /\ bias l2 = bias l
    /\ weight_grad l2
       = Some (zip_with (zip_with f_add)
                 (match weight_grad l with
                  | Some g0 => zip_with (zip_with f_add) g0 (fst g1)
                  | None => fst g1
                  end)
                 (fst g2))
    /\ bias_grad l2
       = Some (zip_with f_add
                 (match bias_grad l with
                  | Some g0 => zip_with f_add g0 (snd g1)
                  | None => snd g1
                  end)
                 (snd g2)).
Proof.
  intros Hs1 Hs2 Hl Hg1 Hg2.
  destruct (train_step_returns _ _ _ _ _ _ _ Hs1) as (Hl1 & _).
  destruct (train_step_returns _ _ _ _ _ _ _ Hs2) as (Hl2 & _).
  pose proof (backward_layers_lookup (loss_grads (loss r1)) _ _ _ Hl) as Hk1.
  rewrite Hg1, <- Hl1 in Hk1.
  pose proof (backward_layers_lookup (loss_grads (loss r2)) _ _ _ Hk1) as Hk2.
  rewrite Hg2, <- Hl2 in Hk2.
  eexists. split; [exact Hk2|]. unfold accumulate_grad, accumulate. simpl.
  split; [done|]. split; [done|].
  split; [by destruct (weight_grad l) | by destruct (bias_grad l)].
Qed.

(** ** The size of a network *)

Lemma sum_constant (c : Z) (rs : list (list T)) :
  Forall (fun r => Z.of_nat (length r) = c) rs ->
  foldr Z.add 0 (map (fun r => Z.of_nat (length r)) rs) = Z.of_nat (length rs) * c.
Proof.
  induction 1 as [|r rs Hr _ IH]; simpl; [lia|]. rewrite IH, Hr. lia.
Qed.

Lemma numel_consistent l :
  consistent l -> numel l = in_features l * out_features l + out_features l.
Proof.
  intros (Hrows & Hall & Hb). unfold numel. rewrite (sum_constant _ _ Hall), Hrows, Hb. lia.
Qed.

Lemma sum_numel ls :
  Forall consistent ls ->
  foldr Z.add 0 (map numel ls)
  = foldr Z.add 0 (map (fun d => fst d * snd d + snd d) (map dims ls)).
Proof.
  induction 1 as [|l ls Hl _ IH]; simpl; [done|].
  by rewrite IH, (numel_consistent l Hl).
Qed.

(** X11: in an instance the constructor returns, every layer's weight has
    [out_features] rows of [in_features] entries and its bias
    [out_features] entries, so the network has
    (input_dim + 1) * hidden_units + n * (hidden_units + 1) * hidden_units
    + (hidden_units + 1) * output_dim parameters, [n] being the number
    of hidden layers built (0 when [hidden_layers] is negative). *)
Theorem parameter_count i o hu hl dp a oa w self w' :
  __init__ i o hu hl dp a oa w = (Ok self, w') ->
  let u := default 10 hu in
  let n := Z.of_nat (Z.to_nat (default 1 hl)) in
  Forall consistent (layers self)
  /\ num_parameters self = (i + 1) * u + n * (u + 1) * u + (u + 1) * o.
Proof.
  intros Hrun u n.
  pose proof (wp_ok _ _ _ _ _ _ (wp_init i o hu hl dp a oa w) Hrun)
    as (_ & _ & _ & _ & _ & _ & _ & _ & Hd & _).
  pose proof (wp_ok _ _ _ _ _ _ (wp_init_detail i o hu hl dp a oa w) Hrun)
    as (_ & Hls & _).
  assert (Hcons : Forall consistent (layers self)).
  { eapply Forall_impl; [exact Hls|]. by intros l [_ Hc]. }
  split; [exact Hcons|].
  unfold num_parameters. rewrite (sum_numel _ Hcons), Hd. unfold stack_dims.
  rewrite !map_app, !foldr_app. simpl.
  change (map ?f (replicate ?k ?x)) with (f <$> replicate k x).
  rewrite fmap_replicate. simpl.
  assert (Hfold : forall (k : nat) (c z : Z),
             foldr Z.add z (replicate k c) = Z.of_nat k * c + z).
  { intros k c z. induction k as [|k IH]; simpl; [lia|]. rewrite IH. lia. }
  rewrite Hfold. fold u. fold n. lia.
Qed.

End NetworkFacts.

(** * Concrete runs *)

#[local] Existing Instance Q_float.

Lemma well_formed_m1 : well_formed m1.
Proof. split; [unfold m1; simpl; lia | reflexivity]. Defined.

(** C1 at concrete inputs: a zero dimension is accepted; a negative one
    is refused by [nn.Linear] only, after the training step has been
    installed and, for [output_dim], after the other layers have been
    allocated. *)
Example zero_input_dim_runs :
  match __init__ (T:=Q) 0 3 None None None None None w0 with
  | (Ok self, w') =>
      map dims (layers self) = [(0, 10); (10, 10); (10, 3)]
      /\ count is_alloc (trace w') = 3%nat
  | (Raised _, _) => False
  end.
Proof. vm_compute. split; reflexivity. Qed.

Example negative_output_dim_runs :
  let out := __init__ (T:=Q) 3 (-1) None None None None None w0 in
  fst out = Raised RuntimeError
  /\ count is_alloc (trace (snd out)) = 2%nat
  /\ resolve_train_step_single (snd out) = Some backprop_train_step_single.
Proof. vm_compute. repeat split; reflexivity. Qed.

Lemma train_step_single_contract_witness :
  well_formed (module_ net1)
  /\ ncols X1 = input_dim (module_ net1)
  /\ exists res s,
       train_step_single ones (X1, y1) (net1, w0) = (Ok res, s)
       /\ shape (y_pred res) = (2, 3)
       /\ training (module_ (fst s)) = true.
Proof.
  split; [exact well_formed_m1|]. split; [reflexivity|].
  destruct (train_step_single_contract ones net1 X1 y1 w0) as (Hok & _ & Hret).
  destruct (Hret well_formed_m1 ReLU_shape_preserving Softmax_last_shape_preserving eq_refl)
    as (yp & w2 & Hrun & Hshape & _).
  destruct (Hok yp w2 Hrun) as (net' & Hstep & Htrain & _).
  eexists. eexists. split; [exact Hstep|]. split; [exact Hshape | exact Htrain].
Defined.

Lemma forward_call_sequence_witness :
  0 <= hidden_layers m1
  /\ (exists Y w',
        forward m1 X1 w0 = (Ok Y, w')
        /\ trace w' = [ECallLayer 0; ECallActivation; ECallDropout;
                       ECallLayer 1; ECallActivation; ECallDropout;
                       ECallLayer 2; ECallOutputActivation])
  /\ agree (forward m1 X1 w0) (layered_pass m1 [l_in; l_mid] l_out X1 w0).
Proof.
  split; [exact (proj1 well_formed_m1)|].
  destruct (forward_call_sequence m1 X1 w0 (proj1 well_formed_m1))
    as (Hok & _ & Hret & Hpass & _).
  split.
  - destruct (Hret well_formed_m1
                ReLU_shape_preserving Softmax_last_shape_preserving eq_refl)
      as (Y & w' & Hrun).
    exists Y, w'. split; [exact Hrun|]. exact (Hok Y w' Hrun).
  - exact (Hpass [l_in; l_mid] l_out eq_refl eq_refl).
Defined.

(** C5 as stated, at a valid configuration whose activation is
    [nn.GLU()]: the constructor returns an instance, and its forward
    pass on a batch of shape (2, 4) yields no output at all.  The first
    layer returns 4 columns, the activation halves them, and the hidden
    layer, which expects 4, raises [RuntimeError].  And at the valid
    configuration with [input_dim = 2^63] there is no instance to apply
    the forward pass of: the constructor raises [TypeError]. *)
Lemma forward_shape_counterexample :
  (0 < 4 /\ 0 < 3 /\ 0 < default 10 (Some 4) /\ 0 <= default 1 (Some 1)
   /\ (0 <= default 0 None)%Q /\ (default 0 None < 1)%Q)
  /\ has_shape X4 2 4
  /\ match __init__ (T:=Q) 4 3 (Some 4) (Some 1) None (Some GLU) None w0 with
     | (Ok self, w1) =>
         fst (forward self X4 w1) = Raised RuntimeError
         /\ ~ (exists Y w', forward self X4 w1 = (Ok Y, w') /\ has_shape Y 2 3)
     | (Raised _, _) => False
     end
  /\ 0 < int64_bound
  /\ fst (__init__ (T:=Q) int64_bound 3 None None None None None w0)
     = Raised TypeError.
Proof.
  split; [repeat split; simpl; try lia; try discriminate; reflexivity|].
  split; [split; [reflexivity | repeat constructor]|].
  split; [|split; [reflexivity | vm_compute; reflexivity]].
  destruct (__init__ (T:=Q) 4 3 (Some 4) (Some 1) None (Some GLU) None w0)
    as [[self|e] w1] eqn:Hrun; [|vm_compute in Hrun; discriminate].
  assert (Hfw : fst (forward self X4 w1) = Raised RuntimeError).
  { vm_compute in Hrun. injection Hrun as <- <-. vm_compute. reflexivity. }
  split; [exact Hfw|].
  intros (Y & w' & HY & _). rewrite HY in Hfw. discriminate.
Qed.

Lemma forward_shape_witness :
  (0 < 4 /\ 0 < 3 /\ 0 < default 10 None /\ 0 <= default 1 None
   /\ (0 <= default 0 None)%Q /\ (default 0 None < 1)%Q)
  /\ has_shape X4 2 4
  /\ exists self w1,
       __init__ (T:=Q) 4 3 None None None None None w0 = (Ok self, w1)
       /\ exists Y w',
            forward (Module_train false self) X4 w1 = (Ok Y, w')
            /\ has_shape Y 2 3.
Proof.
  split; [repeat split; simpl; try lia; try discriminate; reflexivity|].
  assert (HX : has_shape X4 2 4) by (split; [reflexivity | repeat constructor]).
  split; [exact HX|].
  destruct (__init__ (T:=Q) 4 3 None None None None None w0)
    as [[self|e] w1] eqn:Hrun; [|vm_compute in Hrun; discriminate].
  exists self, w1. split; [reflexivity|].
  exact (forward_shape (T:=Q) 4 3 None None None None None w0 self w1
           ltac:(lia) ltac:(lia) ltac:(simpl; lia) ltac:(simpl; lia)
           ltac:(simpl; discriminate) ltac:(reflexivity)
           ReLU_keeps_shape Softmax_last_keeps_shape Hrun false X4 2 w1 HX).
Defined.

Lemma layer_stack_witness :
  0 <= default 1 (Some 2)
  /\ exists self w',
       __init__ (T:=Q) 2 3 (Some 2) (Some 2) None None None w0 = (Ok self, w')
       /\ length (layers self) = 4%nat
       /\ map dims (layers self) = [(2, 2); (2, 2); (2, 2); (2, 3)].
Proof.
  split; [simpl; lia|].
  destruct (__init__ (T:=Q) 2 3 (Some 2) (Some 2) None None None w0)
    as [[self|e] w'] eqn:Hrun; [|vm_compute in Hrun; discriminate].
  exists self, w'. split; [reflexivity|].
  destruct (layer_stack ones 2 3 (Some 2) (Some 2) None None None w0 self w'
              ltac:(simpl; lia) Hrun) as (Hlen & Hd & _).
  split; [exact Hlen | exact Hd].
Defined.

Lemma no_hidden_layer_witness :
  exists self w',
    __init__ (T:=Q) 2 3 (Some 2) (Some 0) None None None w0 = (Ok self, w')
    /\ exists l0 l1,
         layers self = [l0; l1] /\ dims l0 = (2, 2) /\ dims l1 = (2, 3)
         /\ fst (forward self X1 w') = fst (two_layer_pass self l0 l1 X1 w').
Proof.
  destruct (__init__ (T:=Q) 2 3 (Some 2) (Some 0) None None None w0)
    as [[self|e] w'] eqn:Hrun; [|vm_compute in Hrun; discriminate].
  exists self, w'. split; [reflexivity|].
  destruct (no_hidden_layer 2 3 (Some 2) None None None w0 self w' Hrun)
    as (l0 & l1 & Hls & Hd0 & Hd1 & Hfw).
  exists l0, l1. split; [exact Hls|]. split; [exact Hd0|]. split; [exact Hd1|].
  exact (proj1 (proj2 (Hfw X1 w'))).
Defined.

Lemma default_configuration_witness :
  exists self w',
    __init__ (T:=Q) 4 3 None None None None None w0 = (Ok self, w')
    /\ hidden_units self = 10 /\ hidden_layers self = 1
    /\ length (layers self) = 3%nat.
Proof.
  destruct (__init__ (T:=Q) 4 3 None None None None None w0)
    as [[self|e] w'] eqn:Hrun; [|vm_compute in Hrun; discriminate].
  exists self, w'. split; [reflexivity|].
  destruct (default_configuration 4 3 w0 self w' Hrun)
    as (Hhu & Hhl & _ & _ & _ & Hlen & _).
  split; [exact Hhu|]. split; [exact Hhl | exact Hlen].
Defined.

Lemma patch_precedes_configuration_witness :
  ~ valid_probability (default 0%Q (Some 2%Q))
  /\ fst (__init__ (T:=Q) 4 3 None None (Some 2%Q) None None w0) = Raised ValueError
  /\ resolve_train_step_single
       (snd (__init__ (T:=Q) 4 3 None None (Some 2%Q) None None w0))
     = Some backprop_train_step_single.
Proof.
  assert (Hq : ~ valid_probability (default 0%Q (Some 2%Q))).
  { intros [_ Hle]. unfold Qle in Hle. simpl in Hle. lia. }
  split; [exact Hq|].
  destruct (patch_precedes_configuration (T:=Q) 4 3 None None (Some 2%Q) None None w0)
    as (_ & _ & _ & Hbad).
  destruct (Hbad Hq) as (Hraise & _ & Hres).
  split; [exact Hraise | exact Hres].
Defined.

Lemma train_step_keeps_parameters_witness :
  exists l l',
    layers (module_ net1) !! 0%nat = Some l
    /\ layers (module_ (fst (snd (train_step_single ones (X1, y1) (net1, w0))))) !! 0%nat
       = Some l'
    /\ weight l' = weight l /\ bias l' = bias l.
Proof.
  destruct (train_step_keeps_parameters ones net1 (X1, y1) w0) as (_ & _ & Hk).
  destruct (Hk 0%nat _ eq_refl) as (l' & Hl' & Hw & Hb & _).
  eexists. exists l'. split; [reflexivity|]. split; [exact Hl'|]. split; [exact Hw | exact Hb].
Defined.

(** ** Runs for the further properties *)

Lemma constructor_outcome_witness :
  ~ valid_probability (default 0%Q (Some (-1)%Q))
  /\ fst (__init__ (T:=Q) (-1) 3 None None (Some (-1)%Q) None None w0) = Raised ValueError
  /\ fst (__init__ (T:=Q) int64_bound 3 None None None None None w0) = Raised TypeError
  /\ fst (__init__ (T:=Q) (-1) 3 None None None None None w0) = Raised RuntimeError
  /\ fst (__init__ (T:=Q) (2 ^ 62) 3 None None None None None w0) = Raised RuntimeError.
Proof.
  assert (Hq : ~ valid_probability (default 0%Q (Some (-1)%Q))).
  { intros [Hle _]. unfold Qle in Hle. simpl in Hle. lia. }
  assert (Hv : valid_probability (default 0%Q None)) by (split; discriminate).
  split; [exact Hq|]. split; [|split; [|split]].
  - exact (proj2 (proj1 (constructor_outcome (T:=Q) (-1) 3 None None (Some (-1)%Q)
                           None None w0)) Hq).
  - exact (proj1 (proj2 (constructor_outcome (T:=Q) int64_bound 3 None None None
                           None None w0)) Hv eq_refl).
  - exact (proj1 (proj2 (proj2 (constructor_outcome (T:=Q) (-1) 3 None None None
                                  None None w0)))
             Hv eq_refl ltac:(left; lia)).
  - exact (proj1 (proj2 (proj2 (constructor_outcome (T:=Q) (2 ^ 62) 3 None None None
                                  None None w0)))
             Hv eq_refl ltac:(right; right; left; unfold int64_bound; simpl; lia)).
Defined.

Lemma allocations_before_failure_witness :
  -1 < 0
  /\ exists e,
       fst (__init__ (T:=Q) 3 (-1) None None None None None w0) = Raised e
       /\ (num_alloc (snd (__init__ (T:=Q) 3 (-1) None None None None None w0)) <= 2)%nat.
Proof.
  split; [lia|].
  destruct (allocations_before_failure (T:=Q) 3 (-1) None None None None None w0)
    as (_ & _ & _ & Hout).
  exact (Hout ltac:(lia)).
Defined.

Lemma negative_hidden_layers_build_two_witness :
  -5 < 0
  /\ exists self w',
       __init__ (T:=Q) 2 3 (Some 2) (Some (-5)) None None None w0 = (Ok self, w')
       /\ hidden_layers self = -5
       /\ exists l0 l1, layers self = [l0; l1].
Proof.
  split; [lia|].
  destruct (__init__ (T:=Q) 2 3 (Some 2) (Some (-5)) None None None w0)
    as [[self|e] w'] eqn:Hrun; [|vm_compute in Hrun; discriminate].
  exists self, w'. split; [reflexivity|].
  destruct (negative_hidden_layers_build_two 2 3 (Some 2) (-5) None None None w0 self w'
              ltac:(lia) Hrun) as (Hh & _ & l0 & l1 & Hls & _).
  split; [exact Hh|]. exists l0, l1. exact Hls.
Defined.

Lemma forward_negative_hidden_layers_witness :
  layers m2 = [l_in; l_out] /\ hidden_layers m2 < 0
  /\ fst (forward m2 X1 w0) = fst (two_layer_pass m2 l_in l_out X1 w0).
Proof.
  split; [reflexivity|]. split; [unfold m2; simpl; lia|].
  destruct (forward_negative_hidden_layers m2 l_in l_out X1 w0 eq_refl
              ltac:(unfold m2; simpl; lia)) as (Hwrap & _).
  apply Hwrap. reflexivity.
Defined.

Lemma forward_rejects_wrong_width_witness :
  ncols X1 <> 4
  /\ exists self w1,
       __init__ (T:=Q) 4 3 None None None None None w0 = (Ok self, w1)
       /\ forward self X1 w1 = (Raised RuntimeError, emit [ECallLayer 0] w1).
Proof.
  assert (HX : ncols X1 <> 4) by (unfold X1; simpl; lia).
  split; [exact HX|].
  destruct (__init__ (T:=Q) 4 3 None None None None None w0)
    as [[self|e] w1] eqn:Hrun; [|vm_compute in Hrun; discriminate].
  exists self, w1. split; [reflexivity|].
  exact (forward_rejects_wrong_width 4 3 None None None None None w0 self w1 X1 w1 Hrun HX).
Defined.

Lemma forward_is_layered_pass_witness :
  0 <= hidden_layers m1
  /\ layers m1 = take 2 (layers m1) ++ [l_out]
  /\ agree (forward m1 X1 w0) (layered_pass m1 (take 2 (layers m1)) l_out X1 w0).
Proof.
  split; [exact (proj1 well_formed_m1)|]. split; [reflexivity|].
  exact (forward_is_layered_pass m1 (take 2 (layers m1)) l_out X1 w0
           (proj1 well_formed_m1) eq_refl eq_refl).
Defined.

Lemma forward_without_dropout_is_pure_witness :
  dropout_is_identity (Module_train false m1)
  /\ exists r evs, forall w, forward (Module_train false m1) X1 w = (r, emit evs w).
Proof.
  split; [reflexivity|].
  exact (forward_without_dropout_is_pure (Module_train false m1) X1 eq_refl
           (pure_activation_generator_free _ _) (pure_activation_generator_free _ _)).
Defined.

Lemma layers_share_device_witness :
  exists self w',
    __init__ (T:=Q) 4 3 None None None None None w0 = (Ok self, w')
    /\ device self = cpu
    /\ Forall (fun l => linear_device l = cpu) (layers self).
Proof.
  destruct (__init__ (T:=Q) 4 3 None None None None None w0)
    as [[self|e] w'] eqn:Hrun; [|vm_compute in Hrun; discriminate].
  exists self, w'. split; [reflexivity|].
  destruct (layers_share_device 4 3 None None None None None w0 self w' Hrun)
    as (Hdev & Hls).
  split; [exact Hdev|]. rewrite Hdev in Hls.
  exact (Forall_impl _ _ _ Hls (fun l Hl => proj1 Hl)).
Defined.

Lemma two_steps_accumulate_witness :
  step1 = (Ok (returned no_result (fst step1)), snd step1)
  /\ step2 = (Ok (returned no_result (fst step2)), snd step2)
  /\ exists l2,
       layers (module_ (fst (snd step2))) !! 0%nat = Some l2
       /\ weight l2 = [[1; 0]; [0; 1]]%Q
       /\ bias_grad l2 = Some [2; 2]%Q.
Proof.
  assert (H1 : train_step_single ones (X1, y1) (net1, w0)
               = (Ok (returned no_result (fst step1)), (fst (snd step1), snd (snd step1))))
    by (vm_compute; reflexivity).
  assert (H2 : train_step_single ones (X1, y1) (fst (snd step1), snd (snd step1))
               = (Ok (returned no_result (fst step2)), (fst (snd step2), snd (snd step2))))
    by (vm_compute; reflexivity).
  split; [vm_compute; reflexivity|]. split; [vm_compute; reflexivity|].
  destruct (two_steps_accumulate ones net1 (X1, y1) (X1, y1) w0 _ _ _ _ _ _ 0%nat l_in
              ([[1; 1]; [1; 1]], [1; 1])%Q ([[1; 1]; [1; 1]], [1; 1])%Q
              H1 H2 eq_refl eq_refl eq_refl)
    as (l2 & Hl2 & Hw & _ & _ & Hb).
  exists l2. split; [exact Hl2|]. split; [exact Hw | exact Hb].
Defined.

Lemma parameter_count_witness :
  exists self w',
    __init__ (T:=Q) 4 3 None None None None None w0 = (Ok self, w')
    /\ num_parameters self = 193.
Proof.
  destruct (__init__ (T:=Q) 4 3 None None None None None w0)
    as [[self|e] w'] eqn:Hrun; [|vm_compute in Hrun; discriminate].
  exists self, w'. split; [reflexivity|].
  exact (proj2 (parameter_count 4 3 None None None None None w0 self w' Hrun)).
Defined.
